(** * VideoReader: the sampling frame source of the frame-detector video demo

    A shallow embedding of [class VideoReader] of
    [vision/frame-detector-video-demo/VideoDemo.cpp]: its constructor,
    [GetFrameData] (raw fetch with bounded retry) and [GetFrame] (the
    sampling loop), over an abstract [cv::VideoCapture].

    C++ integers are modelled as [Z] with the conversions written out:
    [sampling_frame_rate] is an [unsigned int] (32 bits), and every
    expression is evaluated in the type the usual arithmetic conversions
    give it. *)

From Stdlib Require Import ZArith List String Ascii Bool Lia Sorted.
Import ListNotations.
Local Open Scope Z_scope.

(** ** Machine integers *)

Module CInt.

(** Value of [z] converted to [unsigned int]. *)
Definition to_uint (z : Z) : Z := z mod 2 ^ 32.

(** Value of [z] converted to a signed integer of [bits] bits
    (two's complement wrap-around). *)
Definition to_signed (bits z : Z) : Z :=
  (z + 2 ^ (bits - 1)) mod 2 ^ bits - 2 ^ (bits - 1).

(** Unsigned division; dividing by zero is undefined behaviour and is
    reported as [None]. *)
Definition udiv (a b : Z) : option Z :=
  if b =? 0 then None else Some (a / b).

End CInt.
Import CInt.

(** ** The [timestamp] typedef *)

(** Modelled from the spec: the typedef [timestamp], declared in
    [Platform.h], which is not among the sources.  The specification
    describes it as a signed integer number of milliseconds.  Its width
    decides how the [unsigned int] expressions of the constructor and of
    the sampling gate convert, so it is kept as a parameter with the two
    signed candidates, [int] and [long long]. *)
Inductive timestamp_type : Type :=
| TsInt       (* 32-bit signed *)
| TsLongLong. (* 64-bit signed *)

Definition ts_bits (T : timestamp_type) : Z :=
  match T with TsInt => 32 | TsLongLong => 64 end.

(** Conversion of an integer value to [timestamp]; a value out of range
    wraps around (for the [double] a decoder reports, C++ leaves that case
    undefined). *)
Definition to_timestamp (T : timestamp_type) (z : Z) : Z :=
  to_signed (ts_bits T) z.

(** [a - b] on two timestamps, with overflow wrapping around. *)
Definition ts_sub (T : timestamp_type) (a b : Z) : Z :=
  to_timestamp T (a - b).

(** [d < u] for a timestamp [d] and an [unsigned int] [u].  With
    [timestamp = int] both operands are converted to [unsigned int]; with
    [long long] the unsigned operand is converted to [long long]. *)
Definition ts_lt_uint (T : timestamp_type) (d u : Z) : bool :=
  match T with
  | TsInt => to_uint d <? u
  | TsLongLong => d <? u
  end.

(** ** Outcomes *)

(** The three [runtime_error]s of the constructor, named as in the
    specification. *)
Inductive exn : Type :=
| InvalidArgument     (* "Specified sampling rate is < 0" *)
| UnsupportedFormat   (* "Unsupported file extension: ..." *)
| OpenFailure.        (* "Error opening video/image file: ..." *)

Inductive result (A : Type) : Type :=
| Ok (a : A)
| Throw (e : exn)
| DivByZero           (* undefined behaviour: division by zero *)
| OutOfFuel.          (* the loop did not finish within the given fuel *)

Arguments Ok {A} a.
Arguments Throw {A} e.
Arguments DivByZero {A}.
Arguments OutOfFuel {A}.

(** ** File extensions *)

Module Path.

Fixpoint contains (c : ascii) (s : string) : bool :=
  match s with
  | EmptyString => false
  | String d s' => Ascii.eqb c d || contains c s'
  end.

(** Text after the last ["/"]. *)
Fixpoint filename (s : string) : string :=
  match s with
  | EmptyString => EmptyString
  | String c s' => if contains "/" s then filename s' else s
  end.

(** Text from the last ["."] on, empty when there is none. *)
Fixpoint from_last_dot (s : string) : string :=
  match s with
  | EmptyString => EmptyString
  | String c s' =>
      if contains "." s' then from_last_dot s'
      else if Ascii.eqb c "." then s else EmptyString
  end.

(** [boost::filesystem::path::extension]: empty for the file names ["."]
    and [".."], otherwise the file name from its last dot on. *)
Definition extension (file_path : string) : string :=
  let name := filename file_path in
  if String.eqb name "." || String.eqb name ".." then EmptyString
  else from_last_dot name.

(** [boost::filesystem::path::replace_extension]: the existing extension
    is erased from the end, then the new one is appended, with a dot put
    before it when it does not start with one. *)
Definition replace_extension (file_path new_extension : string) : string :=
  let stem :=
    substring 0 (String.length file_path
                 - String.length (extension file_path)) file_path in
  match new_extension with
  | EmptyString => stem
  | String c _ =>
      if Ascii.eqb c "." then stem ++ new_extension
      else stem ++ String "." new_extension
  end.

End Path.

Definition SUPPORTED_EXTS : list string :=
  [".avi"; ".mov"; ".flv"; ".webm"; ".wmv"; ".mp4"]%string.

(** [SUPPORTED_EXTS.find(ext) != SUPPORTED_EXTS.end()] *)
Definition supported (ext : string) : bool :=
  existsb (String.eqb ext) SUPPORTED_EXTS.

(** ** The decoder interface

    [cv::VideoCapture] as a state-passing interface.  [cap_retrieve]
    returns what it leaves in the output image; [cap_get_pos_msec] is
    [get(CV_CAP_PROP_POS_MSEC)], in whole milliseconds. *)

Class VideoCapture (Cap Mat : Type) : Type := {
  cap_open : Cap -> string -> Cap;
  cap_isOpened : Cap -> bool;
  cap_grab : Cap -> bool * Cap;
  cap_retrieve : Cap -> bool * Mat * Cap;
  cap_get_pos_msec : Cap -> Z
}.

Definition MAX_ATTEMPTS : Z := 2.

Section Reader.

Context {Cap Mat : Type} `{VC : VideoCapture Cap Mat}.
Variable T : timestamp_type.

Record VideoReader : Type := mkReader {
  cap : Cap;
  last_timestamp_ms : Z;
  sampling_frame_rate : Z
}.

(** *** Constructor

    [rate_arg] is the caller's argument; it is converted to the
    [unsigned int] parameter at the call.  The second component of the
    result is the decoder handle as the constructor leaves it, also when
    it throws. *)
Definition VideoReader_new (file_path : string) (rate_arg : Z) (cap0 : Cap)
  : result VideoReader * Cap :=
  let sampling_frame_rate := to_uint rate_arg in
  if sampling_frame_rate <? 0 then (Throw InvalidArgument, cap0) else
  let sentinel :=
    (* both branches of [?:] have type [unsigned int] *)
    if sampling_frame_rate =? 0 then Some (to_uint (-1))
    else match udiv 1000 sampling_frame_rate with
         | Some q => Some (to_uint (0 - q))
         | None => None
         end in
  match sentinel with
  | None => (DivByZero, cap0)
  | Some u =>
      let last_timestamp_ms := to_timestamp T u in
      let ext := Path.extension file_path in
      if negb (supported ext) then (Throw UnsupportedFormat, cap0) else
      let cap1 := cap_open cap0 file_path in
      if negb (cap_isOpened cap1) then (Throw OpenFailure, cap1) else
      (Ok (mkReader cap1 last_timestamp_ms sampling_frame_rate), cap1)
  end.

(** *** GetFrameData *)

(** The local variables of [GetFrameData]. *)
Record fetch : Type := mkFetch {
  frame_found : bool;
  frame_retrieved : bool;
  bgr_frame : Mat;
  timestamp_ms : Z;
  n_attempts : Z;
  f_cap : Cap
}.

(** [frame_found = cap.grab(); frame_retrieved = cap.retrieve(bgr_frame);
    timestamp_ms = cap.get(CV_CAP_PROP_POS_MSEC);] *)
Definition grab_retrieve (c : Cap) (n : Z) : fetch :=
  let g := cap_grab c in
  let r := cap_retrieve (snd g) in
  {| frame_found := fst g;
     frame_retrieved := fst (fst r);
     bgr_frame := snd (fst r);
     timestamp_ms := to_timestamp T (cap_get_pos_msec (snd r));
     n_attempts := n;
     f_cap := snd r |}.

Definition decoded (s : fetch) : bool := frame_found s && frame_retrieved s.

(** [while (!(frame_found && frame_retrieved) && n_attempts++ < MAX_ATTEMPTS)]:
    the increment happens whenever the left operand holds. *)
Fixpoint retry_loop (fuel : nat) (s : fetch) : fetch :=
  match fuel with
  | O => s
  | S fuel' =>
      if negb (decoded s) then
        let n := n_attempts s in
        if n <? MAX_ATTEMPTS
        then retry_loop fuel' (grab_retrieve (f_cap s) (n + 1))
        else {| frame_found := frame_found s;
                frame_retrieved := frame_retrieved s;
                bgr_frame := bgr_frame s;
                timestamp_ms := timestamp_ms s;
                n_attempts := n + 1;
                f_cap := f_cap s |}
      else s
  end.

(** Iterations that always suffice: the loop condition is evaluated at
    most [MAX_ATTEMPTS + 1] times (see [retry_loop_fuel]). *)
Definition retry_fuel : nat := S (Z.to_nat MAX_ATTEMPTS).

Definition GetFrameData (c : Cap) : bool * Mat * Z * Cap :=
  let prev_timestamp_ms := to_timestamp T (cap_get_pos_msec c) in
  let s := retry_loop retry_fuel (grab_retrieve c 0) in
  let frame_found' :=
    if decoded s && (0 <? n_attempts s)
    then if timestamp_ms s <=? prev_timestamp_ms then false else frame_found s
    else frame_found s in
  (frame_found' && frame_retrieved s, bgr_frame s, timestamp_ms s, f_cap s).

(** *** GetFrame

    The [do ... while] loop; [&&] evaluates left to right and stops at the
    first false operand, so [1000 / sampling_frame_rate] is evaluated only
    after [sampling_frame_rate > 0] and [timestamp_ms > 0] held.
    [last_timestamp_ms] is assigned after the loop. *)
Fixpoint GetFrame (fuel : nat) (rd : VideoReader)
  : result (bool * Mat * Z * VideoReader) :=
  match fuel with
  | O => OutOfFuel
  | S fuel' =>
      let '(frame_data_loaded, bgr, ts, c) := GetFrameData (cap rd) in
      let leave :=
        Ok (frame_data_loaded, bgr, ts,
            mkReader c ts (sampling_frame_rate rd)) in
      if negb (0 <? sampling_frame_rate rd) then leave else
      if negb (0 <? ts) then leave else
      match udiv 1000 (sampling_frame_rate rd) with
      | None => DivByZero
      | Some interval =>
          if negb (ts_lt_uint T (ts_sub T ts (last_timestamp_ms rd)) interval)
          then leave else
          if negb frame_data_loaded then leave else
          GetFrame fuel'
            (mkReader c (last_timestamp_ms rd) (sampling_frame_rate rd))
      end
  end.

(** [n] calls of [GetFrame] in a row, with the values they return. *)
Fixpoint pulls (fuel : nat) (n : nat) (rd : VideoReader)
  : result (list (bool * Z) * VideoReader) :=
  match n with
  | O => Ok ([], rd)
  | S n' =>
      match GetFrame fuel rd with
      | Ok (b, _, ts, rd') =>
          match pulls fuel n' rd' with
          | Ok (l, rd'') => Ok ((b, ts) :: l, rd'')
          | Throw e => Throw e
          | DivByZero => DivByZero
          | OutOfFuel => OutOfFuel
          end
      | Throw e => Throw e
      | DivByZero => DivByZero
      | OutOfFuel => OutOfFuel
      end
  end.

End Reader.

Arguments VideoReader : clear implicits.
Arguments mkReader {Cap}.
Arguments cap {Cap}.
Arguments last_timestamp_ms {Cap}.
Arguments sampling_frame_rate {Cap}.

(** ** One grab/retrieve attempt, seen from the decoder handle *)

Section Attempts.

Context {Cap Mat : Type} `{VC : VideoCapture Cap Mat}.
Variable T : timestamp_type.

Definition attempt_ok (c : Cap) : bool := decoded (grab_retrieve T c 0).
Definition attempt_cap (c : Cap) : Cap := f_cap (grab_retrieve T c 0).
Definition attempt_mat (c : Cap) : Mat := bgr_frame (grab_retrieve T c 0).
Definition attempt_ts (c : Cap) : Z := timestamp_ms (grab_retrieve T c 0).

(** The decoder handle after [n] attempts. *)
Definition after_attempts (n : nat) (c : Cap) : Cap :=
  Nat.iter n attempt_cap c.

(** The position read before a raw fetch ([prev_timestamp_ms]). *)
Definition position (c : Cap) : Z := to_timestamp T (cap_get_pos_msec c).

(** The results of [n] raw fetches in a row, and the handle they leave. *)
Fixpoint fetches (n : nat) (c : Cap) : list (bool * Z) * Cap :=
  match n with
  | O => ([], c)
  | S n' =>
      let '(b, _, t, c') := GetFrameData T c in
      let '(l, c'') := fetches n' c' in
      ((b, t) :: l, c'')
  end.

(** A decoder that is exhausted for good: every further attempt fails. *)
Definition exhausted (c : Cap) : Prop :=
  forall n, attempt_ok (after_attempts n c) = false.

(** A decoder whose successful attempts always move the position
    forward. *)
Definition advancing : Prop :=
  forall c, attempt_ok c = true -> position c < position (attempt_cap c).

End Attempts.

(** ** Stub decoders *)

(** A scripted decoder: each grab consumes one script entry
    [(grab_ok, retrieve_ok, position_after)]; once the script is used up
    every grab and retrieve fails.  It counts the calls of [open] and
    [grab].  The image it delivers is tagged with the position. *)
Module Stub.

Record t : Type := mk {
  openable : bool;
  opened : bool;
  open_calls : nat;
  grab_calls : nat;
  script : list (bool * bool * Z);
  pos : Z;
  pending : bool
}.

Definition fresh (can_open : bool) (frames : list (bool * bool * Z)) : t :=
  mk can_open false 0 0 frames 0 false.

Definition open (s : t) (_ : string) : t :=
  mk (openable s) (openable s) (S (open_calls s)) (grab_calls s)
     (script s) (pos s) (pending s).

Definition grab (s : t) : bool * t :=
  match script s with
  | [] =>
      (false,
       mk (openable s) (opened s) (open_calls s) (S (grab_calls s))
          [] (pos s) false)
  | (g, r, p) :: rest =>
      (g,
       mk (openable s) (opened s) (open_calls s) (S (grab_calls s))
          rest p r)
  end.

Definition retrieve (s : t) : bool * Z * t := (pending s, pos s, s).

#[global] Instance capture : VideoCapture t Z := {
  cap_open := open;
  cap_isOpened := opened;
  cap_grab := grab;
  cap_retrieve := retrieve;
  cap_get_pos_msec := pos
}.

(** [n] frames that decode at the first attempt, with the given
    positions. *)
Definition frames (l : list Z) : list (bool * bool * Z) :=
  map (fun p => (true, true, p)) l.

(** The reader the constructor builds over an openable stub that plays
    the given positions, for ["clip.mp4"] at rate [r]. *)
Definition reader (T : timestamp_type) (r : Z) (l : list Z) : VideoReader t :=
  match fst (VideoReader_new T "clip.mp4" r (fresh true (frames l))) with
  | Ok rd => rd
  | _ => mkReader (fresh true []) 0 0
  end.

End Stub.

(** A well-behaved decoder: frame [n] (up to a last one) is delivered at
    the first attempt with position [40 * n] ms. *)
Module Clip.

Definition last_frame : nat := 1000.

#[global] Instance capture : VideoCapture nat nat := {
  cap_open := fun n _ => n;
  cap_isOpened := fun _ => true;
  cap_grab := fun n => (Nat.ltb n last_frame, S n);
  cap_retrieve := fun n => (true, n, n);
  cap_get_pos_msec := fun n => 40 * Z.of_nat n
}.

End Clip.

(** ** Runs of pulls *)

(** Timestamps of the frames a run of pulls returned to the caller. *)
Definition accepted (l : list (bool * Z)) : list Z :=
  map snd (filter fst l).

(** Every element is related to its successor. *)
Fixpoint chain {A : Type} (R : A -> A -> Prop) (l : list A) : Prop :=
  match l with
  | x :: (y :: _) as tl => R x y /\ chain R tl
  | _ => True
  end.

(** A run in which every pull returned a frame. *)
Definition unbroken (l : list (bool * Z)) : Prop :=
  Forall (fun x => fst x = true) l.

(** Values a [timestamp] variable can hold. *)
Definition in_range (T : timestamp_type) (z : Z) : Prop :=
  - 2 ^ (ts_bits T - 1) <= z < 2 ^ (ts_bits T - 1).

(** What the sampling gate guarantees between the results [x] and [y] of
    two consecutive pulls at rate [r]: a returned frame with a positive
    timestamp is at least [1000 / r] ms after the timestamp of the pull
    before it.  When [timestamp] is [int] the gate compares as
    [unsigned int], and a timestamp that went backwards passes as well. *)
Definition gap_respected (T : timestamp_type) (r : Z) (x y : bool * Z) : Prop :=
  fst y = true -> 0 < snd y ->
  1000 / r <= snd y - snd x \/ (T = TsInt /\ snd y < snd x).

(** ** The invariants as the specification words them *)

Section Stated.

Context {Cap Mat : Type} `{VC : VideoCapture Cap Mat}.
Variable T : timestamp_type.

(** Any two frames accepted in pull order have strictly increasing
    timestamps. *)
Definition timestamps_increase (rd : VideoReader Cap) : Prop :=
  forall fuel n l rd',
    pulls T fuel n rd = Ok (l, rd') -> StronglySorted Z.lt (accepted l).

(** Consecutive returned frames are at least [1000 / r] ms apart. *)
Definition frames_spaced (rd : VideoReader Cap) : Prop :=
  forall fuel n l rd',
    pulls T fuel n rd = Ok (l, rd') ->
    chain (fun t1 t2 => 1000 / sampling_frame_rate rd <= t2 - t1)
      (accepted l).

(** The sampling gate as [GetFrame] evaluates it for a frame with
    timestamp [ts]: does the loop discard the frame? *)
Definition discards (rd : VideoReader Cap) (ts : Z) : bool :=
  (0 <? sampling_frame_rate rd) && (0 <? ts) &&
  ts_lt_uint T (ts_sub T ts (last_timestamp_ms rd))
    (1000 / sampling_frame_rate rd).

End Stated.

(** ** [main]: the playback loop around the reader

    [main] is modelled from the point where the command line has been
    parsed.  The face detector, the listeners and the output stream are
    collaborators of which only the calls are recorded, in order; they are
    taken to return normally.  Console output is left out. *)

(** The variables the command line fills. *)
Record Args : Type := mkArgs {
  arg_data_dir : string;
  arg_video_path : string;
  arg_sampling_frame_rate : Z;   (* unsigned int, default 0 *)
  arg_draw_display : bool;
  arg_num_faces : Z;
  arg_loop : bool;
  arg_draw_id : bool;
  arg_disable_logging : bool
}.

(** What [po::store] and [po::notify] leave: an error, the help switch, or
    the parsed variables. *)
Inductive cmdline : Type :=
| ParseError
| HelpRequested
| Parsed (a : Args).

(** The process environment [main] consults: the value of
    [AFFECTIVA_VISION_DATA_DIR], [boost::filesystem::exists], and whether an
    output stream on a path opens. *)
Record Env : Type := mkEnv {
  vision_env : option string;
  fs_exists : string -> bool;
  csv_opens : string -> bool
}.

(** Bounds on the three loops: iterations of [do ... while (loop)], frames
    per playback, and raw fetches per [GetFrame]. *)
Record Fuel : Type := mkFuel {
  fuel_loops : nat;
  fuel_frames : nat;
  fuel_fetches : nat
}.

Section Main.

Context {Cap Mat : Type} `{VC : VideoCapture Cap Mat}.
Variable T : timestamp_type.

(** The calls [main] makes on its collaborators. *)
Inductive event : Type :=
| OpenCsv (csv_path : string)          (* std::ofstream csv_file_stream(csv_path) *)
| DetectorNew (data_dir : string) (num_faces : Z)
| DetectorEnable
| SetImageListener
| SetProcessStatusListener
| DetectorStart
| DetectorProcess (frame : Mat) (timestamp : Z)
| ProcessResults                        (* image_listener.processResults() *)
| DetectorReset
| ListenerReset                         (* image_listener.reset() *)
| DetectorStop
| CloseCsv.

(** [while (video_reader.GetFrame(mat, timestamp_ms)) { ... }] *)
Fixpoint process_frames (fuel gfuel : nat) (rd : VideoReader Cap)
  : list event * result (VideoReader Cap) :=
  match fuel with
  | O => ([], OutOfFuel)
  | S fuel' =>
      match GetFrame T gfuel rd with
      | Ok (true, mat, ts, rd') =>
          let '(tr, r) := process_frames fuel' gfuel rd' in
          (DetectorProcess mat ts :: ProcessResults :: tr, r)
      | Ok (false, _, _, rd') => ([], Ok rd')
      | Throw e => ([], Throw e)
      | DivByZero => ([], DivByZero)
      | OutOfFuel => ([], OutOfFuel)
      end
  end.

(** [do { VideoReader video_reader(...); while ...; detector->reset();
    image_listener.reset(); } while (loop);]  Every iteration constructs
    its reader over a new [cv::VideoCapture], [cap0]. *)
Fixpoint play_loop (fuel : nat) (fu : Fuel) (a : Args) (cap0 : Cap)
  : list event * result unit :=
  match fuel with
  | O => ([], OutOfFuel)
  | S fuel' =>
      match fst (VideoReader_new T (arg_video_path a)
                   (arg_sampling_frame_rate a) cap0) with
      | Ok video_reader =>
          match process_frames (fuel_frames fu) (fuel_fetches fu)
                  video_reader with
          | (tr, Ok _) =>
              let tr1 := tr ++ [DetectorReset; ListenerReset] in
              if arg_loop a
              then let '(tr2, r) := play_loop fuel' fu a cap0 in
                   (tr1 ++ tr2, r)
              else (tr1, Ok tt)
          | (tr, Throw e) => (tr, Throw e)
          | (tr, DivByZero) => (tr, DivByZero)
          | (tr, OutOfFuel) => (tr, OutOfFuel)
          end
      | Throw e => ([], Throw e)
      | DivByZero => ([], DivByZero)
      | OutOfFuel => ([], OutOfFuel)
      end
  end.

(** The data directory after the fallback to the environment variable. *)
Definition effective_data_dir (env : Env) (a : Args) : string :=
  match arg_data_dir a, vision_env env with
  | EmptyString, Some v => v
  | d, _ => d
  end.

(** The tests [main] makes before it creates the detector, in order: the
    data directory is given, it exists, face ids are drawn only when the
    display is drawn, and the output stream opens. *)
Definition checks_pass (env : Env) (a : Args) : bool :=
  negb (String.eqb (effective_data_dir env a) EmptyString) &&
  fs_exists env (effective_data_dir env a) &&
  negb (arg_draw_id a && negb (arg_draw_display a)) &&
  csv_opens env (Path.replace_extension (arg_video_path a) ".csv").

(** The calls up to and including [detector->start()]. *)
Definition startup (csv_path data_dir : string) (num_faces : Z) : list event :=
  [OpenCsv csv_path; DetectorNew data_dir num_faces; DetectorEnable;
   SetImageListener; SetProcessStatusListener; DetectorStart].

(** [main]: the calls made and the exit status.  A [runtime_error] of the
    reader's constructor is caught by the handler, which stops the
    detector and returns 1. *)
Definition main (fu : Fuel) (env : Env) (cap0 : Cap) (cl : cmdline)
  : list event * result Z :=
  match cl with
  | ParseError => ([], Ok 1)
  | HelpRequested => ([], Ok 0)
  | Parsed a =>
      let data_dir := effective_data_dir env a in
      if String.eqb data_dir EmptyString then ([], Ok 1) else
      if negb (fs_exists env data_dir) then ([], Ok 1) else
      if arg_draw_id a && negb (arg_draw_display a) then ([], Ok 1) else
      let csv_path := Path.replace_extension (arg_video_path a) ".csv" in
      if negb (csv_opens env csv_path) then ([OpenCsv csv_path], Ok 1) else
      let pre := startup csv_path data_dir (arg_num_faces a) in
      match play_loop (fuel_loops fu) fu a cap0 with
      | (tr, Ok _) => (pre ++ tr ++ [DetectorStop; CloseCsv], Ok 0)
      | (tr, Throw _) => (pre ++ tr ++ [DetectorStop], Ok 1)
      | (tr, DivByZero) => (pre ++ tr, DivByZero)
      | (tr, OutOfFuel) => (pre ++ tr, OutOfFuel)
      end
  end.

(** The timestamps of the frames handed to the detector. *)
Fixpoint processed (tr : list event) : list Z :=
  match tr with
  | [] => []
  | DetectorProcess _ ts :: tr' => ts :: processed tr'
  | _ :: tr' => processed tr'
  end.

Definition is_start (e : event) : bool :=
  match e with DetectorStart => true | _ => false end.

Definition is_stop (e : event) : bool :=
  match e with DetectorStop => true | _ => false end.

Definition is_new (e : event) : bool :=
  match e with DetectorNew _ _ => true | _ => false end.

(** An event that neither creates, starts nor stops the detector. *)
Definition frame_event (e : event) : Prop :=
  is_start e = false /\ is_stop e = false /\ is_new e = false.

End Main.

Arguments event : clear implicits.

(** ** Basic facts *)

Lemma to_uint_range (z : Z) : 0 <= to_uint z < 2 ^ 32.
Proof. unfold to_uint. apply Z.mod_pos_bound. reflexivity. Qed.

Lemma to_uint_small (z : Z) : 0 <= z < 2 ^ 32 -> to_uint z = z.
Proof. intros H. unfold to_uint. now apply Z.mod_small. Qed.

Lemma to_timestamp_range (T : timestamp_type) (z : Z) :
  - 2 ^ (ts_bits T - 1) <= to_timestamp T z < 2 ^ (ts_bits T - 1).
Proof.
  unfold to_timestamp, to_signed.
  assert (H : 0 <= (z + 2 ^ (ts_bits T - 1)) mod 2 ^ ts_bits T < 2 ^ ts_bits T)
    by (apply Z.mod_pos_bound; destruct T; reflexivity).
  destruct T; simpl in *; lia.
Qed.

Lemma interval_range (r : Z) : 0 < r -> 0 <= 1000 / r <= 1000.
Proof.
  intros Hr. split.
  - apply Z.div_pos; lia.
  - apply Z.div_le_upper_bound; nia.
Qed.

Lemma udiv_pos (a r : Z) : 0 < r -> udiv a r = Some (a / r).
Proof.
  intros Hr. unfold udiv. destruct (Z.eqb_spec r 0); [lia | reflexivity].
Qed.

Section Facts.

Context {Cap Mat : Type} `{VC : VideoCapture Cap Mat}.
Variable T : timestamp_type.

Lemma attempt_ts_position (c : Cap) :
  attempt_ts T c = position T (attempt_cap T c).
Proof. reflexivity. Qed.

(** [GetFrameData] by cases on the outcome of at most three attempts. *)
Lemma GetFrameData_cases (c : Cap) :
  let c1 := attempt_cap T c in
  let c2 := attempt_cap T c1 in
  let c3 := attempt_cap T c2 in
  GetFrameData T c =
    if attempt_ok T c then (true, attempt_mat T c, attempt_ts T c, c1)
    else if attempt_ok T c1 then
      (negb (attempt_ts T c1 <=? position T c),
       attempt_mat T c1, attempt_ts T c1, c2)
    else if attempt_ok T c2 then
      (negb (attempt_ts T c2 <=? position T c),
       attempt_mat T c2, attempt_ts T c2, c3)
    else (false, attempt_mat T c2, attempt_ts T c2, c3).
Proof.
  intros c1 c2 c3. subst c1 c2 c3.
  unfold GetFrameData, retry_fuel, MAX_ATTEMPTS, attempt_ok, attempt_cap,
    attempt_mat, attempt_ts, position.
  change (Z.to_nat 2) with 2%nat.
  unfold retry_loop, decoded, grab_retrieve; cbn.
  destruct (cap_grab c) as [g1 x1]; cbn.
  destruct (cap_retrieve x1) as [[r1 m1] y1]; cbn.
  destruct (cap_grab y1) as [g2 x2]; cbn.
  destruct (cap_retrieve x2) as [[r2 m2] y2]; cbn.
  destruct (cap_grab y2) as [g3 x3]; cbn.
  destruct (cap_retrieve x3) as [[r3 m3] y3]; cbn.
  destruct g1, r1, g2, r2, g3, r3; cbn;
    try reflexivity; destruct (_ <=? _); reflexivity.
Qed.

(** The retry loop has finished within [retry_fuel] iterations: more fuel
    does not change its result. *)
Lemma retry_loop_fuel (c : Cap) (extra : nat) :
  retry_loop T (retry_fuel + extra) (grab_retrieve T c 0)
  = retry_loop T retry_fuel (grab_retrieve T c 0).
Proof.
  unfold retry_fuel, MAX_ATTEMPTS. change (Z.to_nat 2) with 2%nat.
  cbn [Nat.add]. unfold retry_loop, decoded, grab_retrieve; cbn.
  destruct (cap_grab c) as [g1 x1]; cbn.
  destruct (cap_retrieve x1) as [[r1 m1] y1]; cbn.
  destruct (cap_grab y1) as [g2 x2]; cbn.
  destruct (cap_retrieve x2) as [[r2 m2] y2]; cbn.
  destruct (cap_grab y2) as [g3 x3]; cbn.
  destruct (cap_retrieve x3) as [[r3 m3] y3]; cbn.
  destruct g1, r1, g2, r2, g3, r3, extra; reflexivity.
Qed.

Lemma GetFrameData_position (c : Cap) b m t c' :
  GetFrameData T c = (b, m, t, c') -> t = position T c'.
Proof.
  rewrite GetFrameData_cases.
  repeat destruct (attempt_ok T _); intros [= <- <- <- <-];
    apply attempt_ts_position.
Qed.

(** A raw fetch makes one, two or three attempts. *)
Lemma GetFrameData_attempts (c : Cap) b m t c' :
  GetFrameData T c = (b, m, t, c') ->
  exists n, (1 <= n <= 3)%nat /\ c' = after_attempts T n c.
Proof.
  rewrite GetFrameData_cases.
  destruct (attempt_ok T c);
    [| destruct (attempt_ok T (attempt_cap T c));
       [| destruct (attempt_ok T (attempt_cap T (attempt_cap T c)))]];
    intros [= <- <- <- <-];
    [exists 1%nat | exists 2%nat | exists 3%nat | exists 3%nat];
    (split; [lia | reflexivity]).
Qed.

(** A frame delivered after a failed first attempt lies strictly after
    the position read before the fetch. *)
Lemma GetFrameData_retry_after (c : Cap) m t c' :
  attempt_ok T c = false ->
  GetFrameData T c = (true, m, t, c') -> position T c < t.
Proof.
  intros H1. rewrite GetFrameData_cases, H1.
  repeat destruct (attempt_ok T _); intros [= Hb <- <- <-];
    try discriminate;
    apply negb_true_iff, Z.leb_gt in Hb; exact Hb.
Qed.

Lemma GetFrameData_after (c : Cap) m t c' :
  advancing T ->
  GetFrameData T c = (true, m, t, c') -> position T c < t.
Proof.
  intros Hadv H.
  destruct (attempt_ok T c) eqn:H1.
  - rewrite GetFrameData_cases, H1 in H. injection H as <- <- <-.
    rewrite attempt_ts_position. now apply Hadv.
  - eapply GetFrameData_retry_after; eassumption.
Qed.

Lemma exhausted_after (n : nat) (c : Cap) :
  exhausted T c -> exhausted T (after_attempts T n c).
Proof.
  intros H k. unfold after_attempts in *.
  rewrite <- Nat.iter_add. apply H.
Qed.

Lemma GetFrameData_exhausted (c : Cap) :
  exhausted T c ->
  GetFrameData T c =
    (false, attempt_mat T (after_attempts T 2 c),
     attempt_ts T (after_attempts T 2 c), after_attempts T 3 c).
Proof.
  intros H. rewrite GetFrameData_cases.
  pose proof (H 0%nat) as H0. pose proof (H 1%nat) as H1.
  pose proof (H 2%nat) as H2.
  cbn [after_attempts Nat.iter nat_rect] in H0, H1, H2 |- *.
  rewrite H0, H1, H2. reflexivity.
Qed.

(** *** The sampling loop *)

Lemma GetFrame_S (fuel : nat) (rd : VideoReader Cap) :
  GetFrame T (S fuel) rd =
    let '(frame_data_loaded, bgr, ts, c) := GetFrameData T (cap rd) in
    let leave :=
      Ok (frame_data_loaded, bgr, ts,
          mkReader c ts (sampling_frame_rate rd)) in
    if negb (0 <? sampling_frame_rate rd) then leave else
    if negb (0 <? ts) then leave else
    match udiv 1000 (sampling_frame_rate rd) with
    | None => DivByZero
    | Some interval =>
        if negb (ts_lt_uint T (ts_sub T ts (last_timestamp_ms rd)) interval)
        then leave else
        if negb frame_data_loaded then leave else
        GetFrame T fuel
          (mkReader c (last_timestamp_ms rd) (sampling_frame_rate rd))
    end.
Proof. reflexivity. Qed.

(** What a returning [GetFrame] tells: the values come from the last raw
    fetch, the reader keeps its rate and records the timestamp, and the
    gate did not hold for the returned frame. *)
Lemma GetFrame_inv (fuel : nat) (rd : VideoReader Cap) b m t rd' :
  GetFrame T fuel rd = Ok (b, m, t, rd') ->
  rd' = mkReader (cap rd') t (sampling_frame_rate rd) /\
  t = position T (cap rd') /\
  (exists c0, GetFrameData T c0 = (b, m, t, cap rd')) /\
  (0 < sampling_frame_rate rd -> 0 < t -> b = true ->
   ts_lt_uint T (ts_sub T t (last_timestamp_ms rd))
     (1000 / sampling_frame_rate rd) = false).
Proof.
  revert rd. induction fuel as [|fuel IH]; intros rd H; [discriminate|].
  rewrite GetFrame_S in H.
  destruct (GetFrameData T (cap rd)) as [[[l m0] ts] c] eqn:E.
  assert (Hleave :
    Ok (l, m0, ts, mkReader c ts (sampling_frame_rate rd)) =
      Ok (b, m, t, rd') ->
    (0 < sampling_frame_rate rd -> 0 < t -> b = true ->
     ts_lt_uint T (ts_sub T t (last_timestamp_ms rd))
       (1000 / sampling_frame_rate rd) = false) ->
    rd' = mkReader (cap rd') t (sampling_frame_rate rd) /\
    t = position T (cap rd') /\
    (exists c0, GetFrameData T c0 = (b, m, t, cap rd')) /\
    (0 < sampling_frame_rate rd -> 0 < t -> b = true ->
     ts_lt_uint T (ts_sub T t (last_timestamp_ms rd))
       (1000 / sampling_frame_rate rd) = false)).
  { intros [= <- <- <- <-] Hg. cbn [cap]. repeat split.
    - eapply GetFrameData_position; eassumption.
    - exists (cap rd). exact E.
    - exact Hg. }
  cbv zeta in H.
  destruct (Z.ltb_spec 0 (sampling_frame_rate rd)) as [Hr|Hr]; cbn [negb] in H;
    [| apply Hleave; [exact H | intros; lia]].
  destruct (Z.ltb_spec 0 ts) as [Hts|Hts]; cbn [negb] in H;
    [| apply Hleave; [exact H | injection H as <- <- <- <-; intros; lia]].
  rewrite (udiv_pos _ _ Hr) in H.
  destruct (ts_lt_uint T _ _) eqn:G; cbn [negb] in H;
    [| apply Hleave; [exact H | injection H as <- <- <- <-; intros; exact G]].
  destruct l; cbn [negb] in H;
    [| apply Hleave; [exact H | injection H as <- <- <- <-; intros; discriminate]].
  apply IH in H. cbn [cap last_timestamp_ms sampling_frame_rate] in H. exact H.
Qed.

Lemma GetFrame_S_discards (fuel : nat) (rd : VideoReader Cap) :
  GetFrame T (S fuel) rd =
    let '(l, m, ts, c) := GetFrameData T (cap rd) in
    if discards T rd ts && l
    then GetFrame T fuel
           (mkReader c (last_timestamp_ms rd) (sampling_frame_rate rd))
    else Ok (l, m, ts, mkReader c ts (sampling_frame_rate rd)).
Proof.
  rewrite GetFrame_S. unfold discards.
  destruct (GetFrameData T (cap rd)) as [[[l m] ts] c]. cbv zeta.
  destruct (Z.ltb_spec 0 (sampling_frame_rate rd)) as [Hr|Hr];
    cbn [negb andb]; [| reflexivity].
  destruct (0 <? ts); cbn [negb andb]; [| reflexivity].
  rewrite (udiv_pos _ _ Hr).
  destruct (ts_lt_uint T _ _); cbn [negb andb]; [| reflexivity].
  destruct l; reflexivity.
Qed.

(** Induction along the iterations of the sampling loop. *)
Lemma GetFrame_loop_ind
  (P : VideoReader Cap -> bool * Mat * Z * VideoReader Cap -> Prop) :
  (forall rd l m ts c,
      GetFrameData T (cap rd) = (l, m, ts, c) ->
      discards T rd ts && l = false ->
      P rd (l, m, ts, mkReader c ts (sampling_frame_rate rd))) ->
  (forall rd m ts c res,
      GetFrameData T (cap rd) = (true, m, ts, c) ->
      discards T rd ts = true ->
      P (mkReader c (last_timestamp_ms rd) (sampling_frame_rate rd)) res ->
      P rd res) ->
  forall fuel rd res, GetFrame T fuel rd = Ok res -> P rd res.
Proof.
  intros Hleave Hloop.
  induction fuel as [|fuel IH]; intros rd res H; [discriminate|].
  rewrite GetFrame_S_discards in H.
  destruct (GetFrameData T (cap rd)) as [[[l m] ts] c] eqn:E.
  destruct (discards T rd ts && l) eqn:D.
  - apply andb_prop in D as [D ->].
    eapply Hloop; [exact E | exact D | apply IH, H].
  - injection H as <-. now apply Hleave.
Qed.

Lemma GetFrame_after (fuel : nat) (rd : VideoReader Cap) m t rd' :
  advancing T ->
  GetFrame T fuel rd = Ok (true, m, t, rd') -> position T (cap rd) < t.
Proof.
  intros Hadv H.
  refine (GetFrame_loop_ind
    (fun rd res => fst (fst (fst res)) = true ->
                   position T (cap rd) < snd (fst res))
    _ _ fuel rd _ H eq_refl).
  - intros rd0 l m0 ts c E _ Hl. cbn in Hl |- *. subst l.
    eapply GetFrameData_after; eassumption.
  - intros rd0 m0 ts c res E _ IH Hres. cbn [cap] in IH.
    specialize (IH Hres).
    pose proof (GetFrameData_after _ _ _ _ Hadv E) as H1.
    rewrite (GetFrameData_position _ _ _ _ _ E) in H1. lia.
Qed.

End Facts.

(** ** Runs of pulls: inversion *)

Section Runs.

Context {Cap Mat : Type} `{VC : VideoCapture Cap Mat}.
Variable T : timestamp_type.

Lemma pulls_S_inv (fuel n : nat) (rd : VideoReader Cap) l rd' :
  pulls T fuel (S n) rd = Ok (l, rd') ->
  exists b m t rd1 l1,
    GetFrame T fuel rd = Ok (b, m, t, rd1) /\
    pulls T fuel n rd1 = Ok (l1, rd') /\
    l = (b, t) :: l1.
Proof.
  cbn [pulls].
  destruct (GetFrame T fuel rd) as [[[[b m] t] rd1]| | |]; try discriminate.
  destruct (pulls T fuel n rd1) as [[l1 rd2]| | |] eqn:E; try discriminate.
  intros [= <- <-]. now exists b, m, t, rd1, l1.
Qed.

Lemma pulls_rate (fuel n : nat) (rd : VideoReader Cap) l rd' :
  pulls T fuel n rd = Ok (l, rd') ->
  sampling_frame_rate rd' = sampling_frame_rate rd.
Proof.
  revert rd l. induction n as [|n IH]; intros rd l H.
  - now injection H as <- <-.
  - apply pulls_S_inv in H as (b & m & t & rd1 & l1 & H1 & H2 & ->).
    apply IH in H2. apply GetFrame_inv in H1 as (E & _).
    rewrite E in H2. exact H2.
Qed.

(** Along an unbroken run over an advancing decoder the timestamps
    increase, and all lie after the position the run started from. *)
Lemma pulls_after (fuel n : nat) (rd : VideoReader Cap) l rd' :
  advancing T ->
  pulls T fuel n rd = Ok (l, rd') ->
  unbroken l ->
  StronglySorted Z.lt (map snd l) /\
  Forall (fun t => position T (cap rd) < t) (map snd l).
Proof.
  intros Hadv. revert rd l.
  induction n as [|n IH]; intros rd l H Hl.
  - injection H as <- <-. split; constructor.
  - apply pulls_S_inv in H as (b & m & t & rd1 & l1 & H1 & H2 & ->).
    inversion Hl as [|x l' Hb Hl1]; subst. cbn in Hb. subst b.
    destruct (IH _ _ H2 Hl1) as [Hs Hf].
    pose proof (GetFrame_after _ _ _ _ _ _ Hadv H1) as Hlt.
    apply GetFrame_inv in H1 as (_ & Ht & _). rewrite <- Ht in Hf.
    cbn [map snd]. split.
    + constructor; assumption.
    + constructor; [exact Hlt|].
      eapply Forall_impl; [| exact Hf]. cbn. intros; lia.
Qed.

End Runs.

Lemma to_timestamp_small (T : timestamp_type) (z : Z) :
  - 2 ^ 31 <= z < 2 ^ 31 -> to_timestamp T z = z.
Proof.
  intros H. unfold to_timestamp, to_signed.
  destruct T; cbn [ts_bits]; rewrite Z.mod_small; lia.
Qed.

Lemma Clip_advancing (T : timestamp_type) : advancing (VC := Clip.capture) T.
Proof.
  intros n H. unfold attempt_ok, decoded, grab_retrieve in H. cbn in H.
  rewrite andb_true_r in H. apply Nat.leb_le in H.
  change (to_timestamp T (40 * Z.of_nat n) < to_timestamp T (40 * Z.of_nat (S n))).
  rewrite !to_timestamp_small; lia.
Qed.

(** ** C1: order of the accepted timestamps *)

(** C1, as stated, fails: with sampling disabled, a decoder whose first
    grab/retrieve attempt succeeds twice with the same position (40 ms)
    has both frames accepted, and 40 < 40 does not hold.  The check against
    the previous position is made only after a failed first attempt. *)
Lemma C1_repeated_timestamp_accepted :
  (exists rd,
      fst (VideoReader_new TsInt "clip.mp4" 0
             (Stub.fresh true (Stub.frames [40; 40]))) = Ok rd /\
      ~ timestamps_increase TsInt rd) /\
  (exists rd,
      fst (VideoReader_new TsLongLong "clip.mp4" 0
             (Stub.fresh true (Stub.frames [40; 40]))) = Ok rd /\
      ~ timestamps_increase TsLongLong rd).
Proof.
  split; (eexists; split; [reflexivity|]); intros H.
  all: match type of H with timestamps_increase ?T ?rd =>
         assert (E : exists rd', pulls T 1 2 rd = Ok ([(true, 40); (true, 40)], rd'))
           by (eexists; vm_compute; reflexivity)
       end.
  all: destruct E as [rd' E]; apply H in E; cbn in E.
  all: inversion E as [|a l _ F]; subst; inversion F; subst; lia.
Qed.

(** C1, amended: for a decoder whose successful grab/retrieve attempts
    always report a position strictly after the one before the attempt,
    the frames accepted by a run of consecutive successful pulls have
    strictly increasing timestamps (any two of them, in pull order). *)
Theorem C1_increasing_over_advancing_decoder :
  forall (Cap Mat : Type) (VC : VideoCapture Cap Mat) (T : timestamp_type)
         (rd : VideoReader Cap) (fuel n : nat) l rd',
    advancing T ->
    pulls T fuel n rd = Ok (l, rd') ->
    unbroken l ->
    StronglySorted Z.lt (map snd l).
Proof.
  intros Cap Mat VC T rd fuel n l rd' Hadv H Hl.
  exact (proj1 (pulls_after T fuel n rd l rd' Hadv H Hl)).
Qed.

Lemma C1_increasing_over_advancing_decoder_witness :
  advancing (VC := Clip.capture) TsInt /\
  pulls TsInt 1 3 (mkReader 0%nat (-1) 0)
    = Ok ([(true, 40); (true, 80); (true, 120)], mkReader 3%nat 120 0) /\
  StronglySorted Z.lt [40; 80; 120].
Proof.
  split; [apply Clip_advancing|]. split; [reflexivity|].
  apply (C1_increasing_over_advancing_decoder nat nat Clip.capture TsInt
           (mkReader 0%nat (-1) 0) 1 3
           [(true, 40); (true, 80); (true, 120)] (mkReader 3%nat 120 0)).
  - apply Clip_advancing.
  - reflexivity.
  - repeat constructor.
Defined.

(** ** C2: spacing of the returned frames *)

Lemma gate_open_gap (T : timestamp_type) (r t1 t2 : Z) :
  0 < r -> in_range T t1 -> in_range T t2 -> 0 < t2 ->
  ts_lt_uint T (ts_sub T t2 t1) (1000 / r) = false ->
  1000 / r <= t2 - t1 \/ (T = TsInt /\ t2 < t1).
Proof.
  intros Hr H1 H2 Hpos G.
  pose proof (interval_range r Hr) as Hk.
  generalize dependent (1000 / r). intros k G Hk.
  unfold in_range in *.
  destruct T; cbn [ts_bits ts_lt_uint] in *;
    unfold ts_sub, to_timestamp, to_signed, to_uint in G; cbn [ts_bits] in G;
    apply Z.ltb_ge in G.
  - destruct (Z.lt_ge_cases t2 t1) as [Hlt|Hge]; [right; now split|left].
    change (2 ^ (32 - 1)) with 2147483648 in *.
    change (2 ^ 32) with 4294967296 in *.
    Z.div_mod_to_equations. lia.
  - left.
    change (2 ^ (64 - 1)) with 9223372036854775808 in *.
    change (2 ^ 64) with 18446744073709551616 in *.
    Z.div_mod_to_equations. lia.
Qed.

Section Spacing.

Context {Cap Mat : Type} `{VC : VideoCapture Cap Mat}.
Variable T : timestamp_type.

Lemma position_in_range (c : Cap) : in_range T (position T c).
Proof. apply to_timestamp_range. Qed.

Lemma pulls_gaps (fuel n : nat) (rd : VideoReader Cap) l rd' b0 :
  0 < sampling_frame_rate rd ->
  in_range T (last_timestamp_ms rd) ->
  pulls T fuel n rd = Ok (l, rd') ->
  chain (gap_respected T (sampling_frame_rate rd))
    ((b0, last_timestamp_ms rd) :: l).
Proof.
  revert rd l b0. induction n as [|n IH]; intros rd l b0 Hr Hin H.
  - injection H as <- <-. exact I.
  - apply pulls_S_inv in H as (b & m & t & rd1 & l1 & H1 & H2 & ->).
    apply GetFrame_inv in H1 as (E & Ht & _ & G).
    assert (Hin1 : in_range T t) by (rewrite Ht; apply position_in_range).
    cbn [chain]. split.
    + intros Hb Hpos. cbn [fst snd] in *.
      apply gate_open_gap; auto.
    + rewrite E in H2. refine (IH _ l1 b _ _ H2); assumption.
Qed.

End Spacing.

(** C2, as stated, fails: at 10 Hz a decoder delivering frames with
    positions 0, 200 and 0 ms has all three returned (a timestamp that is
    not positive is never held back by the gate), and the last two are
    -200 ms apart, not at least 100. *)
Lemma C2_zero_timestamp_not_spaced :
  (exists rd,
      fst (VideoReader_new TsInt "clip.mp4" 10
             (Stub.fresh true (Stub.frames [0; 200; 0]))) = Ok rd /\
      ~ frames_spaced TsInt rd) /\
  (exists rd,
      fst (VideoReader_new TsLongLong "clip.mp4" 10
             (Stub.fresh true (Stub.frames [0; 200; 0]))) = Ok rd /\
      ~ frames_spaced TsLongLong rd).
Proof.
  split; (eexists; split; [reflexivity|]); intros H.
  all: match type of H with frames_spaced ?T ?rd =>
         assert (E : exists rd',
                   pulls T 1 3 rd
                   = Ok ([(true, 0); (true, 200); (true, 0)], rd'))
           by (eexists; vm_compute; reflexivity)
       end.
  all: destruct E as [rd' E]; apply H in E.
  all: cbn [accepted filter map fst snd chain sampling_frame_rate] in E.
  all: destruct E as (_ & E & _); revert E; vm_compute; intros E; apply E;
    reflexivity.
Qed.

(** C2, amended: for every sampling rate r > 0 and every two consecutive
    calls of [GetFrame], if the second call returns a frame whose
    timestamp t2 is positive, then t2 - t1 >= 1000 / r, where t1 is the
    timestamp of the call before (or, when [timestamp] is [int], t2 < t1).
    Frames with a timestamp that is not positive are exempt from the
    gate. *)
Theorem C2_positive_timestamps_spaced :
  forall (Cap Mat : Type) (VC : VideoCapture Cap Mat) (T : timestamp_type)
         (rd : VideoReader Cap) (fuel n : nat) l rd',
    0 < sampling_frame_rate rd ->
    pulls T fuel n rd = Ok (l, rd') ->
    chain (gap_respected T (sampling_frame_rate rd)) l.
Proof.
  intros Cap Mat VC T rd fuel n l rd' Hr H.
  destruct n as [|n].
  - injection H as <- <-. exact I.
  - apply pulls_S_inv in H as (b & m & t & rd1 & l1 & H1 & H2 & ->).
    apply GetFrame_inv in H1 as (E & Ht & _).
    rewrite E in H2.
    apply (pulls_gaps T fuel n _ l1 rd' b) in H2; cbn in H2 |- *.
    + exact H2.
    + exact Hr.
    + rewrite Ht. apply position_in_range.
Qed.

Lemma C2_positive_timestamps_spaced_witness :
  0 < sampling_frame_rate
        (Stub.reader TsLongLong 10 [0; 40; 80; 120; 160; 200; 240]) /\
  (exists rd',
      pulls TsLongLong 4 3
        (Stub.reader TsLongLong 10 [0; 40; 80; 120; 160; 200; 240])
      = Ok ([(true, 0); (true, 120); (true, 240)], rd')) /\
  chain (gap_respected TsLongLong 10) [(true, 0); (true, 120); (true, 240)].
Proof.
  assert (E : exists rd',
             pulls TsLongLong 4 3
               (Stub.reader TsLongLong 10 [0; 40; 80; 120; 160; 200; 240])
             = Ok ([(true, 0); (true, 120); (true, 240)], rd'))
    by (eexists; vm_compute; reflexivity).
  split; [reflexivity|]. split; [exact E|].
  destruct E as [rd' E].
  exact (C2_positive_timestamps_spaced _ _ Stub.capture TsLongLong
           (Stub.reader TsLongLong 10 [0; 40; 80; 120; 160; 200; 240])
           4 3 _ rd' eq_refl E).
Defined.

(** ** Raw fetch: retries and exhaustion *)

Section RawFetch.

Context {Cap Mat : Type} `{VC : VideoCapture Cap Mat}.
Variable T : timestamp_type.

(** A failed raw fetch ends the pull at once. *)
Lemma GetFrame_fetch_failed (fuel : nat) (rd : VideoReader Cap) m t c :
  GetFrameData T (cap rd) = (false, m, t, c) ->
  GetFrame T (S fuel) rd
    = Ok (false, m, t, mkReader c t (sampling_frame_rate rd)).
Proof.
  intros E. rewrite GetFrame_S_discards, E, andb_false_r. reflexivity.
Qed.

Lemma GetFrame_rate_zero (fuel : nat) (rd : VideoReader Cap) :
  sampling_frame_rate rd = 0 ->
  GetFrame T (S fuel) rd =
    let '(b, m, t, c) := GetFrameData T (cap rd) in
    Ok (b, m, t, mkReader c t 0).
Proof.
  intros Hr. rewrite GetFrame_S_discards. unfold discards. rewrite Hr.
  destruct (GetFrameData T (cap rd)) as [[[b m] t] c]. reflexivity.
Qed.

Lemma GetFrame_exhausted (fuel : nat) (rd : VideoReader Cap) :
  exhausted T (cap rd) ->
  GetFrame T (S fuel) rd
    = Ok (false, attempt_mat T (after_attempts T 2 (cap rd)),
          attempt_ts T (after_attempts T 2 (cap rd)),
          mkReader (after_attempts T 3 (cap rd))
            (attempt_ts T (after_attempts T 2 (cap rd)))
            (sampling_frame_rate rd)).
Proof.
  intros H. apply GetFrame_fetch_failed. now apply GetFrameData_exhausted.
Qed.

End RawFetch.

Lemma Stub_used_up (T : timestamp_type) (s : Stub.t) :
  Stub.script s = [] -> exhausted T s.
Proof.
  intros Hs n. revert s Hs. induction n as [|n IH]; intros s Hs.
  - cbn [after_attempts Nat.iter nat_rect].
    unfold attempt_ok, decoded, grab_retrieve. cbn.
    unfold Stub.grab. rewrite Hs. reflexivity.
  - unfold after_attempts. rewrite Nat.iter_succ_r. apply IH.
    unfold attempt_cap, grab_retrieve. cbn. unfold Stub.grab. rewrite Hs.
    reflexivity.
Qed.

(** ** C3: a retry that does not move past the recorded position *)

(** C3: when the first attempt of a raw fetch fails and retry number [k]
    (1 or 2) is the first to decode a frame, but with a timestamp not
    strictly greater than the position recorded before the first attempt,
    [GetFrameData] returns false, and so does the pull: the frame is not
    returned. *)
Theorem C3_stale_retry_reports_failure :
  forall (Cap Mat : Type) (VC : VideoCapture Cap Mat) (T : timestamp_type)
         (c : Cap) (k : nat),
    (1 <= k <= 2)%nat ->
    (forall j, (j < k)%nat -> attempt_ok T (after_attempts T j c) = false) ->
    attempt_ok T (after_attempts T k c) = true ->
    attempt_ts T (after_attempts T k c) <= position T c ->
    GetFrameData T c
      = (false, attempt_mat T (after_attempts T k c),
         attempt_ts T (after_attempts T k c), after_attempts T (S k) c) /\
    forall fuel last r,
      GetFrame T (S fuel) (mkReader c last r)
        = Ok (false, attempt_mat T (after_attempts T k c),
              attempt_ts T (after_attempts T k c),
              mkReader (after_attempts T (S k) c)
                (attempt_ts T (after_attempts T k c)) r).
Proof.
  intros Cap Mat VC T c k Hk Hfail Hok Hts.
  assert (E : GetFrameData T c
              = (false, attempt_mat T (after_attempts T k c),
                 attempt_ts T (after_attempts T k c),
                 after_attempts T (S k) c)).
  { rewrite GetFrameData_cases.
    pose proof (Hfail 0%nat ltac:(lia)) as H0.
    cbn [after_attempts Nat.iter nat_rect] in H0. rewrite H0.
    apply Z.leb_le in Hts.
    destruct k as [|[|[|k]]]; try lia.
    - cbn [after_attempts Nat.iter nat_rect] in *. rewrite Hok, Hts.
      reflexivity.
    - pose proof (Hfail 1%nat ltac:(lia)) as H1.
      cbn [after_attempts Nat.iter nat_rect] in *. rewrite H1, Hok, Hts.
      reflexivity. }
  split; [exact E|].
  intros fuel last r. now apply GetFrame_fetch_failed.
Qed.

Lemma C3_stale_retry_reports_failure_witness :
  let c := Stub.mk true true 1 0 [(false, false, 0); (true, true, 80)] 80 false in
  attempt_ok TsInt (after_attempts TsInt 0 c) = false /\
  attempt_ok TsInt (after_attempts TsInt 1 c) = true /\
  attempt_ts TsInt (after_attempts TsInt 1 c) <= position TsInt c /\
  fst (fst (fst (GetFrameData TsInt c))) = false.
Proof.
  intros c.
  assert (Hfail : forall j, (j < 1)%nat ->
                            attempt_ok TsInt (after_attempts TsInt j c) = false).
  { intros j Hj. replace j with 0%nat by lia. reflexivity. }
  assert (Hts : attempt_ts TsInt (after_attempts TsInt 1 c) <= position TsInt c)
    by (vm_compute; discriminate).
  split; [reflexivity|]. split; [reflexivity|]. split; [exact Hts|].
  rewrite (proj1 (C3_stale_retry_reports_failure _ _ Stub.capture TsInt c 1
                    ltac:(lia) Hfail eq_refl Hts)).
  reflexivity.
Defined.

(** ** C6: sampling rate 0 *)



(** ** C8: the retry bound *)

(** C8: after a failed first attempt and a failed first retry, the raw
    fetch makes exactly one more attempt (the second retry) and its outcome
    decides; the handle is left after three attempts in all.  When that one
    fails as well, [GetFrameData] returns false and the pull returns false
    as an ordinary result. *)
Theorem C8_two_retries_then_failure :
  forall (Cap Mat : Type) (VC : VideoCapture Cap Mat) (T : timestamp_type)
         (c : Cap),
    attempt_ok T c = false ->
    attempt_ok T (after_attempts T 1 c) = false ->
    GetFrameData T c
      = (attempt_ok T (after_attempts T 2 c) &&
           negb (attempt_ts T (after_attempts T 2 c) <=? position T c),
         attempt_mat T (after_attempts T 2 c),
         attempt_ts T (after_attempts T 2 c),
         after_attempts T 3 c) /\
    (attempt_ok T (after_attempts T 2 c) = false ->
     forall fuel last r,
       GetFrame T (S fuel) (mkReader c last r)
         = Ok (false, attempt_mat T (after_attempts T 2 c),
               attempt_ts T (after_attempts T 2 c),
               mkReader (after_attempts T 3 c)
                 (attempt_ts T (after_attempts T 2 c)) r)).
Proof.
  intros Cap Mat VC T c H0 H1.
  assert (E : GetFrameData T c
      = (attempt_ok T (after_attempts T 2 c) &&
           negb (attempt_ts T (after_attempts T 2 c) <=? position T c),
         attempt_mat T (after_attempts T 2 c),
         attempt_ts T (after_attempts T 2 c),
         after_attempts T 3 c)).
  { rewrite GetFrameData_cases.
    cbn [after_attempts Nat.iter nat_rect] in *. rewrite H0, H1.
    destruct (attempt_ok T (attempt_cap T (attempt_cap T c))); reflexivity. }
  split; [exact E|].
  intros H2 fuel last r. apply GetFrame_fetch_failed.
  cbn [cap]. rewrite E, H2. reflexivity.
Qed.

Lemma C8_two_retries_then_failure_witness :
  let c := Stub.fresh true
             [(false, false, 0); (true, false, 0); (false, true, 0);
              (true, true, 40)] in
  attempt_ok TsInt c = false /\
  attempt_ok TsInt (after_attempts TsInt 1 c) = false /\
  fst (fst (fst (GetFrameData TsInt c))) = false /\
  Stub.grab_calls (snd (GetFrameData TsInt c)) = 3%nat /\
  Stub.script (snd (GetFrameData TsInt c)) = [(true, true, 40)].
Proof.
  intros c.
  pose proof (proj1 (C8_two_retries_then_failure _ _ Stub.capture TsInt c
                       eq_refl eq_refl)) as E.
  split; [reflexivity|]. split; [reflexivity|].
  rewrite E. repeat split.
Defined.

(** ** C9: pulls after the stream ended *)

(** C9: once every further grab/retrieve attempt of the decoder fails,
    each call of [GetFrame] returns false, one result per call, as an
    ordinary return value; the decoder stays exhausted. *)
Theorem C9_exhausted_pulls_return_false :
  forall (Cap Mat : Type) (VC : VideoCapture Cap Mat) (T : timestamp_type)
         (rd : VideoReader Cap) (fuel n : nat),
    exhausted T (cap rd) ->
    exists l rd',
      pulls T (S fuel) n rd = Ok (l, rd') /\
      map fst l = repeat false n /\
      exhausted T (cap rd').
Proof.
  intros Cap Mat VC T rd fuel n. revert rd.
  induction n as [|n IH]; intros rd H.
  - exists [], rd. repeat split. exact H.
  - cbn [pulls]. rewrite (GetFrame_exhausted T fuel rd H).
    destruct (IH (mkReader (after_attempts T 3 (cap rd))
                    (attempt_ts T (after_attempts T 2 (cap rd)))
                    (sampling_frame_rate rd)))
      as (l & rd' & E & Hl & Hex).
    { cbn [cap]. now apply exhausted_after. }
    rewrite E. eexists. exists rd'. split; [reflexivity|].
    cbn [map fst repeat]. rewrite Hl. split; [reflexivity | exact Hex].
Qed.

Lemma C9_exhausted_pulls_return_false_witness :
  exhausted TsInt (cap (Stub.reader TsInt 10 [])) /\
  exists rd',
    pulls TsInt 1 3 (Stub.reader TsInt 10 [])
      = Ok ([(false, 0); (false, 0); (false, 0)], rd').
Proof.
  assert (H : exhausted TsInt (cap (Stub.reader TsInt 10 [])))
    by (apply Stub_used_up; reflexivity).
  split; [exact H|].
  destruct (C9_exhausted_pulls_return_false _ _ Stub.capture TsInt
              (Stub.reader TsInt 10 []) 0 3 H) as (l & rd' & E & _).
  exists rd'. rewrite E. vm_compute in E. injection E as <- _. reflexivity.
Defined.

(** ** The constructor *)

Lemma supported_In (ext : string) :
  supported ext = true <-> In ext SUPPORTED_EXTS.
Proof.
  unfold supported. rewrite existsb_exists. split.
  - intros (x & Hx & E). apply String.eqb_eq in E. now subst.
  - intros H. exists ext. split; [exact H | apply String.eqb_refl].
Qed.

Section Constructor.

Context {Cap Mat : Type} `{VC : VideoCapture Cap Mat}.
Variable T : timestamp_type.

(** The value the constructor gives [last_timestamp_ms], as an
    [unsigned int] before its conversion to [timestamp]. *)
Lemma VideoReader_new_ok (file_path : string) (r : Z) (cap0 : Cap) rd c1 :
  VideoReader_new T file_path r cap0 = (Ok rd, c1) ->
  supported (Path.extension file_path) = true /\
  c1 = cap_open cap0 file_path /\
  cap_isOpened c1 = true /\
  rd = mkReader c1
         (to_timestamp T
            (if to_uint r =? 0 then to_uint (-1)
             else to_uint (0 - 1000 / to_uint r)))
         (to_uint r).
Proof.
  unfold VideoReader_new.
  destruct (to_uint r <? 0); [discriminate|].
  unfold udiv.
  destruct (to_uint r =? 0);
    (destruct (supported (Path.extension file_path)); cbn [negb];
     [| discriminate]);
    (destruct (cap_isOpened (cap_open cap0 file_path)) eqn:Ho; cbn [negb];
     [| discriminate]);
    intros [= <- <-]; repeat split; exact Ho.
Qed.

Lemma VideoReader_new_never_InvalidArgument
      (file_path : string) (r : Z) (cap0 : Cap) :
  fst (VideoReader_new T file_path r cap0) <> Throw InvalidArgument.
Proof.
  unfold VideoReader_new.
  pose proof (to_uint_range r) as Hr.
  destruct (Z.ltb_spec (to_uint r) 0); [lia|].
  unfold udiv.
  destruct (to_uint r =? 0);
    destruct (supported (Path.extension file_path)); cbn [negb fst];
    try discriminate;
    destruct (cap_isOpened (cap_open cap0 file_path)); cbn [negb fst];
    discriminate.
Qed.

End Constructor.

Lemma sentinel_int (k : Z) :
  0 <= k <= 1000 -> to_timestamp TsInt (to_uint (0 - k)) = - k.
Proof.
  intros Hk. unfold to_timestamp, to_signed, to_uint. cbn [ts_bits].
  change (2 ^ (32 - 1)) with 2147483648.
  change (2 ^ 32) with 4294967296.
  Z.div_mod_to_equations. lia.
Qed.

Lemma sentinel_long_long (k : Z) :
  0 < k <= 1000 -> to_timestamp TsLongLong (to_uint (0 - k)) = 2 ^ 32 - k.
Proof.
  intros Hk. unfold to_timestamp, to_signed, to_uint. cbn [ts_bits].
  change (2 ^ (64 - 1)) with 9223372036854775808.
  change (2 ^ 64) with 18446744073709551616.
  change (2 ^ 32) with 4294967296.
  Z.div_mod_to_equations. lia.
Qed.

Lemma gate_open_after_sentinel_int (k t : Z) :
  0 <= k <= 1000 -> 0 <= t < 2 ^ 31 ->
  ts_lt_uint TsInt (ts_sub TsInt t (- k)) k = false.
Proof.
  intros Hk Ht. cbn [ts_lt_uint]. apply Z.ltb_ge.
  unfold ts_sub, to_timestamp, to_signed, to_uint. cbn [ts_bits].
  change (2 ^ (32 - 1)) with 2147483648.
  change (2 ^ 32) with 4294967296.
  change (2 ^ 31) with 2147483648 in Ht.
  Z.div_mod_to_equations. lia.
Qed.

(** ** The sentinel for a 64-bit [timestamp] *)

(** With [timestamp = long long] the same [unsigned int] value is not
    sign-extended: the sentinel is 2^32 - 1000 / r, and a first frame with
    a positive timestamp is held back by the gate. *)
Lemma long_long_sentinel :
  last_timestamp_ms (Stub.reader TsLongLong 10 [40; 80]) = 2 ^ 32 - 100 /\
  last_timestamp_ms (Stub.reader TsLongLong 0 [40; 80]) = 2 ^ 32 - 1 /\
  exists rd',
    GetFrame TsLongLong 3 (Stub.reader TsLongLong 10 [40; 80])
      = Ok (false, 80, 80, rd').
Proof.
  split; [reflexivity|]. split; [reflexivity|].
  eexists. vm_compute. reflexivity.
Qed.

(** ** C5: a negative sampling rate *)

(** C5 at the argument -1: the parameter is an [unsigned int], so the
    argument arrives as 4294967295, the test [sampling_frame_rate < 0] is
    false and construction completes (here over an openable decoder); the
    constructor never throws [InvalidArgument]. *)
Theorem C5_negative_rate_not_rejected :
  forall T : timestamp_type,
    (exists rd c,
        VideoReader_new T "clip.mp4" (-1) (Stub.fresh true []) = (Ok rd, c) /\
        sampling_frame_rate rd = 4294967295) /\
    (forall (file_path : string) (r : Z) (cap0 : Stub.t),
        fst (VideoReader_new T file_path r cap0) <> Throw InvalidArgument).
Proof.
  intros T. split.
  - destruct T; eexists; eexists; split; reflexivity.
  - intros file_path r cap0. apply VideoReader_new_never_InvalidArgument.
Qed.

(** ** C7: unsupported extensions *)

(** C7: when the extension of the path is not one of [.avi], [.mov],
    [.flv], [.webm], [.wmv], [.mp4] (compared as strings, so case matters),
    the constructor throws [UnsupportedFormat] and leaves the decoder
    handle as it received it: no call of [open] was made. *)
Theorem C7_unsupported_extension_before_open :
  forall (Cap Mat : Type) (VC : VideoCapture Cap Mat) (T : timestamp_type)
         (file_path : string) (r : Z) (cap0 : Cap),
    ~ In (Path.extension file_path) SUPPORTED_EXTS ->
    VideoReader_new T file_path r cap0 = (Throw UnsupportedFormat, cap0).
Proof.
  intros Cap Mat VC T file_path r cap0 Hext.
  assert (Hs : supported (Path.extension file_path) = false).
  { destruct (supported (Path.extension file_path)) eqn:E; [|reflexivity].
    apply supported_In in E. contradiction. }
  unfold VideoReader_new.
  pose proof (to_uint_range r) as Hr.
  destruct (Z.ltb_spec (to_uint r) 0); [lia|].
  unfold udiv. destruct (to_uint r =? 0); rewrite Hs; reflexivity.
Qed.

Lemma not_in_SUPPORTED_EXTS (ext : string) :
  supported ext = false -> ~ In ext SUPPORTED_EXTS.
Proof.
  intros H Hin. apply supported_In in Hin. congruence.
Qed.

Lemma C7_unsupported_extension_before_open_witness :
  ~ In (Path.extension "videos/CLIP.MP4") SUPPORTED_EXTS /\
  fst (VideoReader_new TsInt "videos/CLIP.MP4" 10 (Stub.fresh true []))
    = Throw UnsupportedFormat /\
  Stub.open_calls
    (snd (VideoReader_new TsInt "videos/CLIP.MP4" 10 (Stub.fresh true [])))
    = 0%nat.
Proof.
  assert (H : ~ In (Path.extension "videos/CLIP.MP4") SUPPORTED_EXTS)
    by (apply not_in_SUPPORTED_EXTS; reflexivity).
  split; [exact H|].
  rewrite (C7_unsupported_extension_before_open _ _ Stub.capture TsInt
             "videos/CLIP.MP4" 10 (Stub.fresh true []) H).
  split; reflexivity.
Defined.

(** ** C10: division by the sampling rate *)

(** C10: neither the constructor nor any pull divides by zero, whatever
    the sampling rate: both divisions by [sampling_frame_rate] are evaluated
    only after the rate was found different from 0. *)
Theorem C10_no_division_by_zero :
  forall (Cap Mat : Type) (VC : VideoCapture Cap Mat) (T : timestamp_type),
    (forall (file_path : string) (r : Z) (cap0 : Cap),
        fst (VideoReader_new T file_path r cap0) <> DivByZero) /\
    (forall (fuel : nat) (rd : VideoReader Cap),
        GetFrame T fuel rd <> DivByZero) /\
    (forall (fuel n : nat) (rd : VideoReader Cap),
        pulls T fuel n rd <> DivByZero).
Proof.
  intros Cap Mat VC T.
  assert (HG : forall (fuel : nat) (rd : VideoReader Cap),
             GetFrame T fuel rd <> DivByZero).
  { induction fuel as [|fuel IH]; intros rd; [discriminate|].
    cbn [GetFrame].
    destruct (GetFrameData T (cap rd)) as [[[l m] ts] c].
    destruct (0 <? sampling_frame_rate rd) eqn:Hr; cbn [negb];
      [| discriminate].
    destruct (0 <? ts); cbn [negb]; [| discriminate].
    unfold udiv.
    destruct (Z.eqb_spec (sampling_frame_rate rd) 0) as [E|E].
    { rewrite E in Hr. discriminate. }
    destruct (ts_lt_uint T _ _); cbn [negb]; [| discriminate].
    destruct l; cbn [negb]; [apply IH | discriminate]. }
  split; [| split; [exact HG|]].
  - intros file_path r cap0. unfold VideoReader_new.
    destruct (to_uint r <? 0); [discriminate|].
    unfold udiv.
    destruct (to_uint r =? 0);
      destruct (supported (Path.extension file_path)); cbn [negb fst];
      try discriminate;
      destruct (cap_isOpened (cap_open cap0 file_path)); cbn [negb fst];
      discriminate.
  - intros fuel n. induction n as [|n IH]; intros rd; [discriminate|].
    cbn [pulls]. specialize (HG fuel rd).
    destruct (GetFrame T fuel rd) as [[[[b m] t] rd1]| | |];
      try discriminate; [| contradiction].
    specialize (IH rd1).
    destruct (pulls T fuel n rd1) as [[l rd2]| | |];
      try discriminate; contradiction.
Qed.

(** ** Further properties of the reader *)

Section ReaderMore.

Context {Cap Mat : Type} `{VC : VideoCapture Cap Mat}.
Variable T : timestamp_type.

Lemma VideoReader_new_cases (file_path : string) (r : Z) (cap0 : Cap) :
  VideoReader_new T file_path r cap0 =
    if supported (Path.extension file_path) then
      let cap1 := cap_open cap0 file_path in
      if cap_isOpened cap1 then
        (Ok (mkReader cap1
               (to_timestamp T
                  (if to_uint r =? 0 then to_uint (-1)
                   else to_uint (0 - 1000 / to_uint r)))
               (to_uint r)), cap1)
      else (Throw OpenFailure, cap1)
    else (Throw UnsupportedFormat, cap0).
Proof.
  unfold VideoReader_new.
  pose proof (to_uint_range r) as Hr.
  destruct (Z.ltb_spec (to_uint r) 0); [lia|].
  unfold udiv.
  destruct (to_uint r =? 0);
    destruct (supported (Path.extension file_path)); cbn [negb];
    try reflexivity;
    destruct (cap_isOpened (cap_open cap0 file_path)); reflexivity.
Qed.

(** X1: the constructor has three outcomes, decided by the extension and
    by whether the decoder reports the file opened: [UnsupportedFormat]
    with the handle untouched; [OpenFailure] after one call of [open]; or a
    reader holding the opened handle, the rate as an [unsigned int] and the
    sentinel computed from it. *)
Theorem VideoReader_new_outcome (file_path : string) (r : Z) (cap0 : Cap) :
  VideoReader_new T file_path r cap0 =
    if supported (Path.extension file_path) then
      let cap1 := cap_open cap0 file_path in
      if cap_isOpened cap1 then
        (Ok (mkReader cap1
               (to_timestamp T
                  (if to_uint r =? 0 then to_uint (-1)
                   else to_uint (0 - 1000 / to_uint r)))
               (to_uint r)), cap1)
      else (Throw OpenFailure, cap1)
    else (Throw UnsupportedFormat, cap0).
Proof. apply VideoReader_new_cases. Qed.

(** X2: a frame decoded at the first attempt is returned after that one
    attempt, whatever its timestamp: no comparison with the position read
    before the fetch is made. *)
Theorem GetFrameData_first_attempt (c : Cap) :
  attempt_ok T c = true ->
  GetFrameData T c
    = (true, attempt_mat T c, attempt_ts T c, after_attempts T 1 c).
Proof.
  intros H. rewrite GetFrameData_cases, H. reflexivity.
Qed.

(** X3: when [GetFrameData] returns true, the frame and timestamp it
    delivers are those of the first attempt that decoded, among at most
    three; no attempt is made after it; and if that was a retry, the
    timestamp is strictly greater than the position read before the
    fetch. *)
Theorem GetFrameData_true_inv (c : Cap) m t c' :
  GetFrameData T c = (true, m, t, c') ->
  exists k,
    (k <= 2)%nat /\
    (forall j, (j < k)%nat -> attempt_ok T (after_attempts T j c) = false) /\
    attempt_ok T (after_attempts T k c) = true /\
    m = attempt_mat T (after_attempts T k c) /\
    t = attempt_ts T (after_attempts T k c) /\
    c' = after_attempts T (S k) c /\
    (k = 0%nat \/ position T c < t).
Proof.
  rewrite GetFrameData_cases.
  destruct (attempt_ok T c) eqn:H0;
    [| destruct (attempt_ok T (attempt_cap T c)) eqn:H1;
       [| destruct (attempt_ok T (attempt_cap T (attempt_cap T c))) eqn:H2]];
    [intros [= <- <- <-] | intros [= Hb <- <- <-] | intros [= Hb <- <- <-]
    | discriminate].
  - exists 0%nat. repeat split; auto; intros j Hj; lia.
  - exists 1%nat. apply negb_true_iff, Z.leb_gt in Hb.
    repeat split; auto.
    intros j Hj. replace j with 0%nat by lia. exact H0.
  - exists 2%nat. apply negb_true_iff, Z.leb_gt in Hb.
    repeat split; auto.
    intros j Hj. destruct j as [|[|j]]; [exact H0 | exact H1 | lia].
Qed.

(** X4: every raw fetch makes at least one and at most three grab/retrieve
    attempts, and the timestamp it reports is the decoder position after
    the last of them, also when it returns false. *)
Theorem GetFrameData_attempts_and_position (c : Cap) :
  exists n,
    (1 <= n <= 3)%nat /\
    snd (GetFrameData T c) = after_attempts T n c /\
    snd (fst (GetFrameData T c)) = position T (snd (GetFrameData T c)).
Proof.
  destruct (GetFrameData T c) as [[[b m] t] c'] eqn:E.
  destruct (GetFrameData_attempts T c b m t c' E) as (n & Hn & Hc).
  exists n. cbn [fst snd]. repeat split; try lia; try exact Hc.
  eapply GetFrameData_position; exact E.
Qed.

(** The handle a pull leaves is the one it received, moved on by a number
    of attempts. *)
Lemma GetFrame_attempts (fuel : nat) (rd : VideoReader Cap) b m t rd' :
  GetFrame T fuel rd = Ok (b, m, t, rd') ->
  exists n, (1 <= n)%nat /\ cap rd' = after_attempts T n (cap rd).
Proof.
  intros H.
  refine (GetFrame_loop_ind T
    (fun rd res => exists n, (1 <= n)%nat /\
                   cap (snd res) = after_attempts T n (cap rd))
    _ _ fuel rd _ H).
  - intros rd0 l m0 ts c E _. cbn [snd cap].
    destruct (GetFrameData_attempts T _ _ _ _ _ E) as (n & Hn & Hc).
    exists n. split; [lia | exact Hc].
  - intros rd0 m0 ts c res E _ (n & Hn & Hc). cbn [cap] in Hc.
    destruct (GetFrameData_attempts T _ _ _ _ _ E) as (n0 & Hn0 & Hc0).
    exists (n + n0)%nat. split; [lia|].
    rewrite Hc, Hc0. unfold after_attempts. now rewrite Nat.iter_add.
Qed.

(** X5: whenever [GetFrame] returns, with true or with false, the reader
    has recorded the returned timestamp as [last_timestamp_ms], this
    timestamp is the decoder position, the sampling rate is unchanged, and
    the decoder handle was moved on by at least one attempt. *)
Theorem GetFrame_bookkeeping (fuel : nat) (rd : VideoReader Cap) b m t rd' :
  GetFrame T fuel rd = Ok (b, m, t, rd') ->
  last_timestamp_ms rd' = t /\
  sampling_frame_rate rd' = sampling_frame_rate rd /\
  t = position T (cap rd') /\
  exists n, (1 <= n)%nat /\ cap rd' = after_attempts T n (cap rd).
Proof.
  intros H.
  pose proof (GetFrame_attempts _ _ _ _ _ _ H) as Ha.
  apply GetFrame_inv in H as (E & Ht & _).
  rewrite E at 1 2. cbn [last_timestamp_ms sampling_frame_rate].
  repeat split; assumption.
Qed.

End ReaderMore.

Lemma fetches_S {Cap Mat : Type} `{VC : VideoCapture Cap Mat}
      (T : timestamp_type) (n : nat) (c : Cap) b m t c' :
  GetFrameData T c = (b, m, t, c') ->
  fetches T (S n) c = ((b, t) :: fst (fetches T n c'), snd (fetches T n c')).
Proof.
  intros E. cbn [fetches]. rewrite E.
  destruct (fetches T n c') as [l c'']. reflexivity.
Qed.

(** A frame the gate discards has a positive timestamp below
    [last_timestamp_ms + 1000 / r]. *)
Lemma discards_bound (T : timestamp_type) (last t k : Z) :
  in_range T last -> in_range T t ->
  (T = TsLongLong -> 0 <= last) ->
  0 <= k <= 1000 -> 0 < t ->
  ts_lt_uint T (ts_sub T t last) k = true ->
  t < last + k.
Proof.
  intros Hl Ht Hll Hk Hpos G. unfold in_range in *.
  destruct T; cbn [ts_bits ts_lt_uint] in *;
    unfold ts_sub, to_timestamp, to_signed, to_uint in G; cbn [ts_bits] in G;
    apply Z.ltb_lt in G.
  - change (2 ^ (32 - 1)) with 2147483648 in *.
    change (2 ^ 32) with 4294967296 in *.
    Z.div_mod_to_equations. lia.
  - specialize (Hll eq_refl).
    change (2 ^ (64 - 1)) with 9223372036854775808 in *.
    change (2 ^ 64) with 18446744073709551616 in *.
    Z.div_mod_to_equations. lia.
Qed.

Section SamplingLoop.

Context {Cap Mat : Type} `{VC : VideoCapture Cap Mat}.
Variable T : timestamp_type.

(** X6: the frame a pull returns is the result of its last raw fetch; all
    raw fetches before it in the same pull delivered frames that the gate
    discarded, each compared with the [last_timestamp_ms] the pull started
    with (discarded frames are consumed from the decoder and do not move
    the reference); the returned result itself failed or passed the gate. *)
Theorem GetFrame_skips_discarded (fuel : nat) (rd : VideoReader Cap)
        b m t rd' :
  GetFrame T fuel rd = Ok (b, m, t, rd') ->
  exists l,
    (List.length l < fuel)%nat /\
    fetches T (S (List.length l)) (cap rd) = (l ++ [(b, t)], cap rd') /\
    Forall (fun x => fst x = true /\ discards T rd (snd x) = true) l /\
    discards T rd t && b = false.
Proof.
  revert rd. induction fuel as [|fuel IH]; intros rd H; [discriminate|].
  rewrite GetFrame_S_discards in H.
  destruct (GetFrameData T (cap rd)) as [[[l0 m0] ts] c] eqn:E.
  destruct (discards T rd ts && l0) eqn:D.
  - apply andb_prop in D as [D ->].
    apply IH in H as (l & Hlen & Hf & Hall & Hlast).
    cbn [cap] in Hf.
    exists ((true, ts) :: l). cbn [List.length]. repeat split.
    + lia.
    + rewrite (fetches_S T _ _ _ _ _ _ E), Hf. reflexivity.
    + constructor; [split; [reflexivity | exact D]|].
      eapply Forall_impl; [| exact Hall]. intros x Hx. exact Hx.
    + exact Hlast.
  - injection H as <- <- <- <-.
    exists []. cbn [List.length app cap]. repeat split.
    + lia.
    + rewrite (fetches_S T _ _ _ _ _ _ E). reflexivity.
    + constructor.
    + exact D.
Qed.

(** X7: over a decoder whose successful attempts always advance the
    position, the sampling loop ends: [GetFrame] returns within
    [last_timestamp_ms + 1000 / r - position] + 1 raw fetches (one fetch
    when that number is not positive). *)
Theorem GetFrame_terminates (fuel : nat) (rd : VideoReader Cap) :
  advancing T ->
  in_range T (last_timestamp_ms rd) ->
  (T = TsLongLong -> 0 <= last_timestamp_ms rd) ->
  (Z.to_nat (last_timestamp_ms rd + 1000 / sampling_frame_rate rd
             - position T (cap rd)) < fuel)%nat ->
  exists b m t rd', GetFrame T fuel rd = Ok (b, m, t, rd').
Proof.
  intros Hadv. revert rd.
  induction fuel as [|fuel IH]; intros rd Hin Hll Hfuel; [lia|].
  rewrite GetFrame_S_discards.
  destruct (GetFrameData T (cap rd)) as [[[l m] ts] c] eqn:E.
  destruct (discards T rd ts && l) eqn:D; [| now eauto].
  apply andb_prop in D as [D ->].
  unfold discards in D.
  apply andb_prop in D as [D G]. apply andb_prop in D as [Hr Hts].
  apply Z.ltb_lt in Hr. apply Z.ltb_lt in Hts.
  pose proof (GetFrameData_after T _ _ _ _ Hadv E) as Hlt.
  pose proof (GetFrameData_position T _ _ _ _ _ E) as Hp.
  assert (Hb : ts < last_timestamp_ms rd + 1000 / sampling_frame_rate rd).
  { apply (discards_bound T); auto.
    - rewrite Hp. apply position_in_range.
    - apply interval_range; exact Hr. }
  apply IH; cbn [cap last_timestamp_ms sampling_frame_rate]; auto.
  rewrite <- Hp. lia.
Qed.

(** X8: at a rate above 1000 Hz the interval [1000 / r] is 0, and a
    fetched frame whose timestamp is not below [last_timestamp_ms] is
    returned by the pull that fetched it. *)
Theorem GetFrame_above_1000_Hz (fuel : nat) (rd : VideoReader Cap) b m t c :
  1000 < sampling_frame_rate rd ->
  in_range T (last_timestamp_ms rd) ->
  (T = TsLongLong -> 0 <= last_timestamp_ms rd) ->
  GetFrameData T (cap rd) = (b, m, t, c) ->
  last_timestamp_ms rd <= t ->
  GetFrame T (S fuel) rd = Ok (b, m, t, mkReader c t (sampling_frame_rate rd)).
Proof.
  intros Hr Hin Hll E Hle.
  rewrite GetFrame_S_discards, E.
  replace (discards T rd t) with false; [reflexivity|].
  symmetry. unfold discards.
  destruct (Z.ltb_spec 0 t) as [Hpos|]; [| now rewrite andb_false_r].
  apply not_true_is_false. intros D.
  apply andb_prop in D as [_ G].
  assert (Hk : 1000 / sampling_frame_rate rd = 0)
    by (apply Z.div_small; lia).
  rewrite Hk in G.
  apply (discards_bound T) in G; auto; try lia.
  rewrite (GetFrameData_position T _ _ _ _ _ E). apply position_in_range.
Qed.

(** X9: a fetched frame whose timestamp is not positive is returned by the
    pull that fetched it, at every sampling rate and whatever
    [last_timestamp_ms] is: such a frame never enters the comparison of
    the gate. *)
Theorem GetFrame_nonpositive_timestamp (fuel : nat) (rd : VideoReader Cap)
        b m t c :
  GetFrameData T (cap rd) = (b, m, t, c) ->
  t <= 0 ->
  GetFrame T (S fuel) rd = Ok (b, m, t, mkReader c t (sampling_frame_rate rd)).
Proof.
  intros E Ht. rewrite GetFrame_S_discards, E. unfold discards.
  destruct (Z.ltb_spec 0 t); [lia|].
  now rewrite andb_false_r.
Qed.

End SamplingLoop.

(** *** Instances on the stub decoders *)

Lemma GetFrameData_first_attempt_witness :
  let c := Stub.mk true true 1 1 [(true, true, 80)] 80 true in
  position TsInt c = 80 /\
  attempt_ok TsInt c = true /\
  GetFrameData TsInt c = (true, 80, 80, after_attempts TsInt 1 c).
Proof.
  intros c. split; [reflexivity|]. split; [reflexivity|].
  exact (GetFrameData_first_attempt TsInt c eq_refl).
Defined.

Lemma GetFrameData_true_inv_witness :
  let c := Stub.mk true true 1 1 [(false, false, 0); (true, true, 120)] 80 true in
  GetFrameData TsInt c = (true, 120, 120, after_attempts TsInt 2 c) /\
  exists k,
    (k <= 2)%nat /\
    attempt_ok TsInt (after_attempts TsInt k c) = true /\
    (k = 0%nat \/ position TsInt c < 120).
Proof.
  intros c.
  assert (E : GetFrameData TsInt c = (true, 120, 120, after_attempts TsInt 2 c))
    by reflexivity.
  split; [exact E|].
  destruct (GetFrameData_true_inv TsInt c _ _ _ E)
    as (k & Hk & _ & Hok & _ & _ & _ & Hpos).
  exists k. repeat split; assumption.
Defined.

Lemma GetFrame_bookkeeping_witness :
  exists rd',
    GetFrame TsInt 1 (Stub.reader TsInt 10 []) = Ok (false, 0, 0, rd') /\
    last_timestamp_ms (Stub.reader TsInt 10 []) = -100 /\
    last_timestamp_ms rd' = 0 /\
    sampling_frame_rate rd' = 10.
Proof.
  assert (E : exists rd',
             GetFrame TsInt 1 (Stub.reader TsInt 10 []) = Ok (false, 0, 0, rd'))
    by (eexists; vm_compute; reflexivity).
  destruct E as [rd' E]. exists rd'.
  destruct (GetFrame_bookkeeping TsInt _ _ _ _ _ _ E) as (Hl & Hr & _).
  repeat split; [exact E | exact Hl | exact Hr].
Defined.

Lemma GetFrame_skips_discarded_witness :
  let rd := mkReader (Stub.fresh true (Stub.frames [40; 80; 120])) 0 10 in
  fst (fetches TsInt 3 (cap rd)) = [(true, 40); (true, 80); (true, 120)] /\
  exists rd' l,
    GetFrame TsInt 3 rd = Ok (true, 120, 120, rd') /\
    (List.length l < 3)%nat /\
    fetches TsInt (S (List.length l)) (cap rd) = (l ++ [(true, 120)], cap rd') /\
    Forall (fun x => fst x = true /\ discards TsInt rd (snd x) = true) l.
Proof.
  intros rd. split; [reflexivity|].
  assert (E : exists rd', GetFrame TsInt 3 rd = Ok (true, 120, 120, rd'))
    by (eexists; vm_compute; reflexivity).
  destruct E as [rd' E].
  destruct (GetFrame_skips_discarded TsInt _ _ _ _ _ _ E)
    as (l & Hlen & Hf & Hall & _).
  exists rd', l. repeat split; assumption.
Defined.

Lemma GetFrame_terminates_witness :
  let rd := mkReader 0%nat 0 10 in
  advancing (VC := Clip.capture) TsInt /\
  in_range TsInt (last_timestamp_ms rd) /\
  (Z.to_nat (last_timestamp_ms rd + 1000 / sampling_frame_rate rd
             - position TsInt (cap rd)) < 101)%nat /\
  exists b m t rd', GetFrame TsInt 101 rd = Ok (b, m, t, rd').
Proof.
  intros rd.
  assert (Hin : in_range TsInt (last_timestamp_ms rd))
    by (split; [discriminate | reflexivity]).
  assert (Hf : (Z.to_nat (last_timestamp_ms rd + 1000 / sampling_frame_rate rd
                          - position TsInt (cap rd)) < 101)%nat)
    by (vm_compute; lia).
  split; [apply Clip_advancing|]. split; [exact Hin|]. split; [exact Hf|].
  apply (GetFrame_terminates TsInt 101 rd (Clip_advancing TsInt) Hin).
  - discriminate.
  - exact Hf.
Defined.

Lemma GetFrame_above_1000_Hz_witness :
  1000 < sampling_frame_rate (Stub.reader TsLongLong 2000 [40; 50]) /\
  last_timestamp_ms (Stub.reader TsLongLong 2000 [40; 50]) = 0 /\
  exists rd',
    GetFrame TsLongLong 1 (Stub.reader TsLongLong 2000 [40; 50])
      = Ok (true, 40, 40, rd').
Proof.
  split; [reflexivity|]. split; [reflexivity|].
  eexists.
  apply (GetFrame_above_1000_Hz TsLongLong 0
           (Stub.reader TsLongLong 2000 [40; 50]) true 40 40).
  - reflexivity.
  - split; [discriminate | reflexivity].
  - intros _. discriminate.
  - vm_compute. reflexivity.
  - discriminate.
Defined.

Lemma GetFrame_nonpositive_timestamp_witness :
  last_timestamp_ms (Stub.reader TsLongLong 10 [0; 40]) = 2 ^ 32 - 100 /\
  exists rd',
    GetFrame TsLongLong 1 (Stub.reader TsLongLong 10 [0; 40])
      = Ok (true, 0, 0, rd').
Proof.
  split; [reflexivity|].
  eexists.
  apply (GetFrame_nonpositive_timestamp TsLongLong 0
           (Stub.reader TsLongLong 10 [0; 40]) true 0 0).
  - vm_compute. reflexivity.
  - discriminate.
Defined.

(** ** [main] *)

Section MainFacts.

Context {Cap Mat : Type} `{VC : VideoCapture Cap Mat}.
Variable T : timestamp_type.

(** A pull returns a value or is still running: it never throws and never
    divides by zero. *)
Lemma GetFrame_status (fuel : nat) (rd : VideoReader Cap) :
  GetFrame T fuel rd = OutOfFuel \/ exists res, GetFrame T fuel rd = Ok res.
Proof.
  revert rd. induction fuel as [|fuel IH]; intros rd; [now left|].
  rewrite GetFrame_S_discards.
  destruct (GetFrameData T (cap rd)) as [[[l m] ts] c].
  destruct (discards T rd ts && l); [apply IH | right; eauto].
Qed.

Lemma pulls_length (fuel n : nat) (rd : VideoReader Cap) l rd' :
  pulls T fuel n rd = Ok (l, rd') -> List.length l = n.
Proof.
  revert rd l. induction n as [|n IH]; intros rd l H.
  - now injection H as <- <-.
  - apply pulls_S_inv in H as (b & m & t & rd1 & l1 & _ & H2 & ->).
    cbn [List.length]. f_equal. eapply IH; exact H2.
Qed.

Lemma processed_app (tr1 tr2 : list (event Mat)) :
  processed (tr1 ++ tr2) = processed tr1 ++ processed tr2.
Proof.
  induction tr1 as [|e tr1 IH]; [reflexivity|].
  destruct e; cbn [app processed]; rewrite ?IH; reflexivity.
Qed.

Lemma filter_frame_events (f : event Mat -> bool) (tr : list (event Mat)) :
  Forall (fun e => f e = false) tr -> filter f tr = [].
Proof.
  induction 1 as [|e tr He _ IH]; [reflexivity|].
  cbn [filter]. now rewrite He.
Qed.

Lemma process_frames_events (fuel gfuel : nat) (rd : VideoReader Cap) :
  Forall frame_event (fst (process_frames T fuel gfuel rd)).
Proof.
  revert rd. induction fuel as [|fuel IH]; intros rd; [constructor|].
  cbn [process_frames].
  destruct (GetFrame T gfuel rd) as [[[[[|] m] t] rd1]| | |];
    [| constructor ..].
  specialize (IH rd1).
  destruct (process_frames T fuel gfuel rd1) as [tr r]. cbn [fst] in *.
  constructor; [repeat split|].
  constructor; [repeat split | exact IH].
Qed.

Lemma process_frames_status (fuel gfuel : nat) (rd : VideoReader Cap) :
  snd (process_frames T fuel gfuel rd) = OutOfFuel \/
  exists rd', snd (process_frames T fuel gfuel rd) = Ok rd'.
Proof.
  revert rd. induction fuel as [|fuel IH]; intros rd; [now left|].
  cbn [process_frames].
  destruct (GetFrame_status gfuel rd) as [E | [[[[b m] t] rd1] E]];
    rewrite E; [now left|].
  destruct b; [| right; exists rd1; reflexivity].
  specialize (IH rd1).
  destruct (process_frames T fuel gfuel rd1) as [tr r]. exact IH.
Qed.

(** What the frame loop hands to the detector is an unbroken run of pulls,
    ended by the first pull that returns false. *)
Lemma process_frames_pulls (fuel gfuel : nat) (rd : VideoReader Cap) tr rd' :
  process_frames T fuel gfuel rd = (tr, Ok rd') ->
  exists l t,
    pulls T gfuel (S (List.length l)) rd = Ok (l ++ [(false, t)], rd') /\
    unbroken l /\
    processed tr = map snd l.
Proof.
  revert rd tr. induction fuel as [|fuel IH]; intros rd tr H; [discriminate|].
  cbn [process_frames] in H.
  destruct (GetFrame T gfuel rd) as [[[[[|] m] t] rd1]| | |] eqn:E;
    try discriminate.
  - destruct (process_frames T fuel gfuel rd1) as [tr1 r] eqn:E1.
    injection H as <- ->.
    apply IH in E1 as (l & t1 & Hp & Hu & Hpr).
    exists ((true, t) :: l), t1. repeat split.
    + change (List.length ((true, t) :: l)) with (S (List.length l)).
      cbn [pulls] in Hp |- *. rewrite E.
      destruct (GetFrame T gfuel rd1) as [[[[b2 m2] t2] rd2]| | |];
        try discriminate.
      destruct (pulls T gfuel (List.length l) rd2) as [[l2 rd3]| | |];
        try discriminate.
      injection Hp as Hl <-. cbn [app]. rewrite <- Hl. reflexivity.
    + constructor; [reflexivity | exact Hu].
    + cbn [processed map snd]. now rewrite Hpr.
  - injection H as <- <-. exists [], t. repeat split.
    + cbn [pulls List.length app]. rewrite E. reflexivity.
    + constructor.
Qed.

(** Conversely, when the run of pulls ends with its first false after [n]
    frames, the frame loop finishes within [n + 1] iterations. *)
Lemma process_frames_of_pulls (fuel gfuel : nat) (rd : VideoReader Cap)
      l t rd' :
  pulls T gfuel (S (List.length l)) rd = Ok (l ++ [(false, t)], rd') ->
  unbroken l ->
  (List.length l < fuel)%nat ->
  exists tr,
    process_frames T fuel gfuel rd = (tr, Ok rd') /\
    processed tr = map snd l.
Proof.
  revert rd fuel. induction l as [|[b0 t0] l IH]; intros rd fuel H Hu Hlen.
  - destruct fuel as [|fuel]; [cbn in Hlen; lia|].
    cbn [pulls List.length app] in H. cbn [process_frames].
    destruct (GetFrame T gfuel rd) as [[[[b m] t1] rd1]| | |];
      try discriminate.
    injection H as -> -> ->. exists []. split; reflexivity.
  - destruct fuel as [|fuel]; [cbn in Hlen; lia|].
    inversion Hu as [|x l' Hb Hu']; subst. cbn [fst] in Hb. subst b0.
    apply pulls_S_inv in H as (b & m & t1 & rd1 & l1 & H1 & H2 & Hl).
    cbn [app] in Hl. injection Hl as <- <- <-.
    cbn [List.length] in Hlen.
    destruct (IH rd1 fuel H2 Hu' ltac:(lia)) as (tr & Hp & Hpr).
    cbn [process_frames]. rewrite H1, Hp.
    eexists. split; [reflexivity|].
    cbn [processed map snd]. now rewrite Hpr.
Qed.

Lemma play_loop_events (fuel : nat) (fu : Fuel) (a : Args) (cap0 : Cap) :
  Forall frame_event (fst (play_loop T fuel fu a cap0)).
Proof.
  induction fuel as [|fuel IH]; [constructor|].
  cbn [play_loop].
  destruct (fst (VideoReader_new T _ _ cap0)) as [rd| | |]; try constructor.
  pose proof (process_frames_events (fuel_frames fu) (fuel_fetches fu) rd)
    as Hev.
  destruct (process_frames T _ _ rd) as [tr [rd'| | |]]; cbn [fst] in *;
    try exact Hev.
  assert (Hev1 : Forall frame_event (tr ++ [DetectorReset; ListenerReset])).
  { apply Forall_app. split; [exact Hev|]. repeat constructor. }
  destruct (arg_loop a); [| exact Hev1].
  destruct (play_loop T fuel fu a cap0) as [tr2 r]. cbn [fst] in *.
  apply Forall_app. split; assumption.
Qed.

Lemma play_loop_status (fuel : nat) (fu : Fuel) (a : Args) (cap0 : Cap) :
  snd (play_loop T fuel fu a cap0) <> DivByZero.
Proof.
  induction fuel as [|fuel IH]; [discriminate|].
  cbn [play_loop]. rewrite VideoReader_new_cases.
  destruct (supported _); [| discriminate].
  cbv zeta. destruct (cap_isOpened _); [| discriminate]. cbn [fst].
  match goal with |- context [process_frames T ?f ?g ?rd] =>
    pose proof (process_frames_status f g rd) as Hs;
    destruct (process_frames T f g rd) as [tr r]
  end.
  cbn [snd] in Hs. destruct Hs as [-> | [rd' ->]]; [discriminate|].
  destruct (arg_loop a); [| discriminate].
  destruct (play_loop T fuel fu a cap0) as [tr2 r2]. exact IH.
Qed.

(** With [loop] set, the playback loop never finishes normally. *)
Lemma play_loop_forever (fuel : nat) (fu : Fuel) (a : Args) (cap0 : Cap) :
  arg_loop a = true ->
  forall u, snd (play_loop T fuel fu a cap0) <> Ok u.
Proof.
  intros Hl. induction fuel as [|fuel IH]; intros u; [discriminate|].
  cbn [play_loop].
  destruct (fst (VideoReader_new T _ _ cap0)) as [rd| | |]; try discriminate.
  destruct (process_frames T _ _ rd) as [tr [rd'| | |]]; try discriminate.
  rewrite Hl.
  destruct (play_loop T fuel fu a cap0) as [tr2 r2]. apply IH.
Qed.

(** [main] when one of the tests fails, and when all pass. *)
Lemma main_checks_fail (fu : Fuel) (env : Env) (cap0 : Cap) (a : Args) :
  checks_pass env a = false ->
  snd (main T fu env cap0 (Parsed a)) = Ok 1 /\
  Forall frame_event (fst (main T fu env cap0 (Parsed a))).
Proof.
  unfold checks_pass, main.
  destruct (String.eqb (effective_data_dir env a) EmptyString);
    cbn [negb andb]; [intros _; split; [reflexivity | constructor]|].
  destruct (fs_exists env (effective_data_dir env a));
    cbn [negb andb]; [| intros _; split; [reflexivity | constructor]].
  destruct (arg_draw_id a && negb (arg_draw_display a));
    cbn [negb andb]; [intros _; split; [reflexivity | constructor]|].
  intros ->. cbn [negb]. split; [reflexivity|].
  repeat constructor.
Qed.

Lemma main_checks_pass (fu : Fuel) (env : Env) (cap0 : Cap) (a : Args) :
  checks_pass env a = true ->
  main T fu env cap0 (Parsed a) =
    let pre := startup (Path.replace_extension (arg_video_path a) ".csv")
                 (effective_data_dir env a) (arg_num_faces a) in
    match play_loop T (fuel_loops fu) fu a cap0 with
    | (tr, Ok _) => (pre ++ tr ++ [DetectorStop; CloseCsv], Ok 0)
    | (tr, Throw _) => (pre ++ tr ++ [DetectorStop], Ok 1)
    | (tr, DivByZero) => (pre ++ tr, DivByZero)
    | (tr, OutOfFuel) => (pre ++ tr, OutOfFuel)
    end.
Proof.
  unfold checks_pass, main. intros H.
  apply andb_prop in H as [H H4]. apply andb_prop in H as [H H3].
  apply andb_prop in H as [H1 H2].
  apply negb_true_iff in H1. apply negb_true_iff in H3.
  rewrite H1, H2, H3, H4. reflexivity.
Qed.

End MainFacts.

Section MainProperties.

Context {Cap Mat : Type} `{VC : VideoCapture Cap Mat}.
Variable T : timestamp_type.

Lemma frame_events_no_new (tr : list (event Mat)) d n :
  Forall frame_event tr -> ~ In (DetectorNew d n) tr.
Proof.
  intros H Hin. rewrite Forall_forall in H.
  destruct (H _ Hin) as (_ & _ & Hn). discriminate.
Qed.

Lemma frame_events_filter (tr : list (event Mat)) :
  Forall frame_event tr ->
  filter is_start tr = [] /\ filter is_stop tr = [].
Proof.
  intros H. split; apply filter_frame_events;
    (eapply Forall_impl; [| exact H]); intros e (Hs & Hp & _); assumption.
Qed.

Lemma startup_new (csv_path dd : string) (nf : Z) d n :
  In (DetectorNew (Mat := Mat) d n) (startup csv_path dd nf) ->
  d = dd /\ n = nf.
Proof.
  cbn. intros [H|[H|[H|[H|[H|[H|[]]]]]]]; try discriminate.
  injection H as <- <-. now split.
Qed.

(** X10: [main] creates the detector only after all its tests passed: the
    data directory it is created with is the one of the command line or,
    when that is empty, the environment variable's; it is not empty and
    exists; face ids are not requested without the display; and the output
    stream has opened. *)
Theorem main_detector_created_after_checks
        (fu : Fuel) (env : Env) (cap0 : Cap) (a : Args) tr r d n :
  main T fu env cap0 (Parsed a) = (tr, r) ->
  In (DetectorNew d n) tr ->
  d = effective_data_dir env a /\
  n = arg_num_faces a /\
  d <> EmptyString /\
  fs_exists env d = true /\
  (arg_draw_id a = true -> arg_draw_display a = true) /\
  csv_opens env (Path.replace_extension (arg_video_path a) ".csv") = true.
Proof.
  intros H Hin.
  destruct (checks_pass env a) eqn:Hc.
  - rewrite (main_checks_pass T fu env cap0 a Hc) in H. cbv zeta in H.
    pose proof (play_loop_events T (fuel_loops fu) fu a cap0) as Hev.
    assert (Hd : d = effective_data_dir env a /\ n = arg_num_faces a).
    { assert (Hin' : In (DetectorNew (Mat := Mat) d n)
                       (startup (Path.replace_extension (arg_video_path a) ".csv")
                          (effective_data_dir env a) (arg_num_faces a))).
      { destruct (play_loop T (fuel_loops fu) fu a cap0) as [tr' [u|e| |]];
          cbn [fst] in Hev; apply (f_equal fst) in H; cbn [fst] in H;
          subst tr;
          apply in_app_or in Hin as [Hin|Hin]; try exact Hin;
          try (now apply frame_events_no_new in Hin);
          apply in_app_or in Hin as [Hin|Hin];
          try (now apply frame_events_no_new in Hin);
          cbn in Hin; intuition discriminate. }
      now apply startup_new in Hin'. }
    destruct Hd as [-> ->]. split; [reflexivity|]. split; [reflexivity|].
    unfold checks_pass in Hc.
    apply andb_prop in Hc as [Hc H4]. apply andb_prop in Hc as [Hc H3].
    apply andb_prop in Hc as [H1 H2].
    apply negb_true_iff in H1. apply negb_true_iff in H3.
    repeat split; try assumption.
    + intros E. rewrite E in H1. discriminate.
    + intros Hid. rewrite Hid in H3. cbn in H3.
      now apply negb_false_iff in H3.
  - destruct (main_checks_fail T fu env cap0 a Hc) as [_ Hev].
    rewrite H in Hev. cbn [fst] in Hev.
    now apply (frame_events_no_new _ d n) in Hev.
Qed.

(** X11: the detector is started at most once; a run that returned has
    stopped it as often as it started it, also when the reader's
    constructor threw; a run that is still going has not stopped it. *)
Theorem main_start_stop_balance
        (fu : Fuel) (env : Env) (cap0 : Cap) (cl : cmdline) tr r :
  main T fu env cap0 cl = (tr, r) ->
  (List.length (filter is_start tr) <= 1)%nat /\
  (forall code, r = Ok code ->
     List.length (filter is_stop tr) = List.length (filter is_start tr)) /\
  (r = OutOfFuel -> filter is_stop tr = []).
Proof.
  intros H.
  destruct cl as [| |a];
    [injection H as <- <-; repeat split; cbn; try lia; discriminate ..|].
  destruct (checks_pass env a) eqn:Hc.
  - rewrite (main_checks_pass T fu env cap0 a Hc) in H. cbv zeta in H.
    pose proof (play_loop_events T (fuel_loops fu) fu a cap0) as Hev.
    pose proof (play_loop_status T (fuel_loops fu) fu a cap0) as Hst.
    destruct (play_loop T (fuel_loops fu) fu a cap0) as [tr' [u|e| |]];
      cbn [fst snd] in Hev, Hst; [| | contradiction |];
      apply frame_events_filter in Hev as [Hs Hp];
      pose proof (f_equal fst H) as Htr; pose proof (f_equal snd H) as Hr;
      cbn [fst snd] in Htr, Hr; subst tr r;
      rewrite !filter_app, Hs, Hp; cbn;
      repeat split; try lia; try discriminate; reflexivity.
  - destruct (main_checks_fail T fu env cap0 a Hc) as [Hr Hev].
    rewrite H in Hr, Hev. cbn [fst snd] in Hr, Hev. subst r.
    apply frame_events_filter in Hev as [-> ->].
    repeat split; cbn; try lia; discriminate.
Qed.

Lemma main_reader_fails
        (fu : Fuel) (env : Env) (cap0 : Cap) (a : Args) :
  checks_pass env a = true ->
  (1 <= fuel_loops fu)%nat ->
  supported (Path.extension (arg_video_path a)) = false \/
  cap_isOpened (cap_open cap0 (arg_video_path a)) = false ->
  main T fu env cap0 (Parsed a) =
    (startup (Path.replace_extension (arg_video_path a) ".csv")
       (effective_data_dir env a) (arg_num_faces a) ++ [DetectorStop],
     Ok 1).
Proof.
  intros Hc Hf Hbad.
  rewrite (main_checks_pass T fu env cap0 a Hc). cbv zeta.
  destruct (fuel_loops fu) as [|f]; [lia|].
  cbn [play_loop]. rewrite VideoReader_new_cases.
  destruct (supported _); cbv zeta.
  - destruct Hbad as [Hbad|Hbad]; [discriminate|]. rewrite Hbad. reflexivity.
  - reflexivity.
Qed.

(** X12: when the tests pass but the reader cannot be constructed (the
    extension is not supported, or the decoder does not open the file),
    [main] has already started the detector; it stops it, processes no
    frame and returns 1. *)
Theorem main_reader_construction_fails
        (fu : Fuel) (env : Env) (cap0 : Cap) (a : Args) :
  checks_pass env a = true ->
  (1 <= fuel_loops fu)%nat ->
  supported (Path.extension (arg_video_path a)) = false \/
  cap_isOpened (cap_open cap0 (arg_video_path a)) = false ->
  main T fu env cap0 (Parsed a) =
    (startup (Path.replace_extension (arg_video_path a) ".csv")
       (effective_data_dir env a) (arg_num_faces a) ++ [DetectorStop],
     Ok 1).
Proof. apply main_reader_fails. Qed.

(** A run without [loop] that returned 0: the reader was constructed and
    the frames processed are an unbroken run of its pulls. *)
Lemma main_run (fu : Fuel) (env : Env) (cap0 : Cap) (a : Args) tr :
  arg_loop a = false ->
  main T fu env cap0 (Parsed a) = (tr, Ok 0) ->
  exists rd l t rd',
    fst (VideoReader_new T (arg_video_path a) (arg_sampling_frame_rate a)
           cap0) = Ok rd /\
    pulls T (fuel_fetches fu) (S (List.length l)) rd
      = Ok (l ++ [(false, t)], rd') /\
    unbroken l /\
    processed tr = map snd l.
Proof.
  intros Hl H.
  destruct (checks_pass env a) eqn:Hc.
  2:{ destruct (main_checks_fail T fu env cap0 a Hc) as [Hr _].
      rewrite H in Hr. discriminate. }
  rewrite (main_checks_pass T fu env cap0 a Hc) in H. cbv zeta in H.
  destruct (fuel_loops fu) as [|f]; [discriminate|].
  cbn [play_loop] in H.
  destruct (fst (VideoReader_new T _ _ cap0)) as [rd| | |];
    try discriminate.
  destruct (process_frames T _ _ rd) as [trp [rd'| | |]] eqn:Ep;
    try discriminate.
  rewrite Hl in H. apply (f_equal fst) in H. cbn [fst] in H. subst tr.
  apply process_frames_pulls in Ep as (l & t & Hp & Hu & Hpr).
  exists rd, l, t, rd'. repeat split; try assumption.
  rewrite !processed_app, Hpr. cbn. now rewrite !app_nil_r.
Qed.


(** X14: over a decoder whose successful attempts always advance the
    position, a run without [loop] that returns 0 has handed the frames to
    the detector with strictly increasing timestamps. *)
Theorem main_processes_increasing_timestamps
        (fu : Fuel) (env : Env) (cap0 : Cap) (a : Args) tr :
  advancing T ->
  arg_loop a = false ->
  main T fu env cap0 (Parsed a) = (tr, Ok 0) ->
  StronglySorted Z.lt (processed tr).
Proof.
  intros Hadv Hl H.
  destruct (main_run fu env cap0 a tr Hl H)
    as (rd & l & t & rd' & _ & Hp & Hu & ->).
  assert (Hrun : exists rd1, pulls T (fuel_fetches fu) (List.length l) rd
                             = Ok (l, rd1)).
  { clear H Hu. revert rd Hp.
    induction l as [|[b0 t0] l IH]; intros rd Hp; [now exists rd|].
    cbn [List.length app] in Hp.
    apply pulls_S_inv in Hp as (b & m & t1 & rd1 & l1 & H1 & H2 & Hl1).
    injection Hl1 as <- <- <-.
    destruct (IH rd1 H2) as [rd2 E].
    exists rd2. cbn [List.length pulls]. rewrite H1, E. reflexivity. }
  destruct Hrun as [rd1 Hrun].
  exact (proj1 (pulls_after T _ _ _ _ _ Hadv Hrun Hu)).
Qed.


(** X16: with [loop] set, [main] never returns 0: the playback loop is
    left only by an exception of the reader's constructor, which gives
    exit status 1. *)
Theorem main_loop_never_returns_0
        (fu : Fuel) (env : Env) (cap0 : Cap) (a : Args) :
  arg_loop a = true ->
  snd (main T fu env cap0 (Parsed a)) <> Ok 0.
Proof.
  intros Hl.
  destruct (checks_pass env a) eqn:Hc.
  - rewrite (main_checks_pass T fu env cap0 a Hc). cbv zeta.
    pose proof (play_loop_forever T (fuel_loops fu) fu a cap0 Hl) as Hn.
    destruct (play_loop T (fuel_loops fu) fu a cap0) as [tr [u|e| |]];
      cbn [snd] in *; try discriminate.
    now specialize (Hn u).
  - destruct (main_checks_fail T fu env cap0 a Hc) as [-> _]. discriminate.
Qed.

End MainProperties.

(** ** The path of the results file *)

Lemma append_nil_r (s : string) : (s ++ "")%string = s.
Proof. induction s as [|c s IH]; cbn; [reflexivity | now rewrite IH]. Qed.

Lemma append_assoc (a b c : string) :
  ((a ++ b) ++ c)%string = (a ++ (b ++ c))%string.
Proof. induction a as [|x a IH]; cbn; [reflexivity | now rewrite IH]. Qed.

Lemma length_append (a b : string) :
  String.length (a ++ b) = (String.length a + String.length b)%nat.
Proof. induction a as [|x a IH]; cbn; [reflexivity | now rewrite IH]. Qed.

Lemma substring_prefix (a b : string) :
  substring 0 (String.length a) (a ++ b) = a.
Proof.
  induction a as [|x a IH]; cbn.
  - destruct b; reflexivity.
  - now rewrite IH.
Qed.

Lemma append_inv_head (a x y : string) :
  (a ++ x)%string = (a ++ y)%string -> x = y.
Proof.
  induction a as [|c a IH]; cbn; [trivial|].
  intros [= H]. now apply IH.
Qed.

Lemma filename_suffix (s : string) :
  exists pre, s = (pre ++ Path.filename s)%string.
Proof.
  induction s as [|c s IH]; [now exists EmptyString|].
  cbn [Path.filename].
  destruct (Path.contains "/" (String c s)).
  - destruct IH as [pre E]. exists (String c pre). cbn. now rewrite <- E.
  - now exists EmptyString.
Qed.

Lemma from_last_dot_suffix (s : string) :
  exists pre, s = (pre ++ Path.from_last_dot s)%string.
Proof.
  induction s as [|c s IH]; [now exists EmptyString|].
  cbn [Path.from_last_dot].
  destruct (Path.contains "." s).
  - destruct IH as [pre E]. exists (String c pre). cbn. now rewrite <- E.
  - destruct (Ascii.eqb c ".").
    + now exists EmptyString.
    + exists (String c s). now rewrite append_nil_r.
Qed.

(** The extension is a suffix of the path. *)
Lemma extension_suffix (p : string) :
  exists stem, p = (stem ++ Path.extension p)%string.
Proof.
  unfold Path.extension.
  destruct (String.eqb (Path.filename p) "." || String.eqb (Path.filename p) "..").
  - exists p. now rewrite append_nil_r.
  - destruct (filename_suffix p) as [pre E].
    destruct (from_last_dot_suffix (Path.filename p)) as [pre' E'].
    exists (pre ++ pre')%string. rewrite append_assoc, <- E', <- E. reflexivity.
Qed.

Lemma replace_extension_csv (p stem : string) :
  p = (stem ++ Path.extension p)%string ->
  Path.replace_extension p ".csv" = (stem ++ ".csv")%string.
Proof.
  intros E. unfold Path.replace_extension.
  change (Ascii.eqb "." ".") with true. cbv iota.
  f_equal.
  rewrite E at 1 3. rewrite length_append, Nat.add_sub.
  apply substring_prefix.
Qed.

Lemma replace_extension_csv_same (p : string) :
  Path.replace_extension p ".csv" = p <-> Path.extension p = ".csv"%string.
Proof.
  destruct (extension_suffix p) as [stem E].
  rewrite (replace_extension_csv p stem E). split.
  - intros H. pose proof (eq_trans H E) as H'.
    apply append_inv_head in H'. now symmetry.
  - intros H. rewrite <- H. symmetry. exact E.
Qed.

(** X17: the path of the results file, the video path with its extension
    replaced by [.csv], is the video path itself exactly when the video
    path has the extension [.csv]; for every path the reader accepts the
    two differ. *)
Theorem csv_path_is_video_path_iff_csv (p : string) :
  (Path.replace_extension p ".csv" = p <-> Path.extension p = ".csv"%string) /\
  (supported (Path.extension p) = true -> Path.replace_extension p ".csv" <> p).
Proof.
  split; [apply replace_extension_csv_same|].
  intros Hs H. apply replace_extension_csv_same in H.
  rewrite H in Hs. discriminate.
Qed.

(** X18: given a video path with the extension [.csv], [main] (its tests
    passing) opens that very path as its output stream, before the reader
    rejects the extension; it then stops the detector and returns 1 without
    processing a frame. *)
Theorem main_csv_input_opened_for_output :
  forall (Cap Mat : Type) (VC : VideoCapture Cap Mat) (T : timestamp_type)
         (fu : Fuel) (env : Env) (cap0 : Cap) (a : Args),
    Path.extension (arg_video_path a) = ".csv"%string ->
    checks_pass env a = true ->
    (1 <= fuel_loops fu)%nat ->
    main T fu env cap0 (Parsed a) =
      (startup (arg_video_path a) (effective_data_dir env a)
         (arg_num_faces a) ++ [DetectorStop], Ok 1).
Proof.
  intros Cap Mat VC T fu env cap0 a Hext Hc Hf.
  rewrite (main_reader_fails T fu env cap0 a Hc Hf).
  - apply replace_extension_csv_same in Hext. now rewrite Hext.
  - left. rewrite Hext. reflexivity.
Qed.

(** *** Instances of the properties of [main] *)

Lemma main_detector_created_after_checks_witness :
  let env := mkEnv (Some "/opt/data"%string) (fun _ => true) (fun _ => true) in
  let a := mkArgs "" "clip.mp4" 0 true 2 false false false in
  let run := main TsInt (mkFuel 1 5 5) env
               (Stub.fresh true (Stub.frames [0; 40])) (Parsed a) in
  In (DetectorNew "/opt/data" 2) (fst run) /\
  effective_data_dir env a = "/opt/data"%string /\
  fs_exists env "/opt/data" = true.
Proof.
  intros env a run.
  assert (Hin : In (DetectorNew "/opt/data" 2) (fst run))
    by (right; left; reflexivity).
  destruct (main_detector_created_after_checks TsInt (mkFuel 1 5 5) env
              (Stub.fresh true (Stub.frames [0; 40])) a (fst run) (snd run)
              "/opt/data" 2 (surjective_pairing run) Hin)
    as (Hd & _ & _ & He & _).
  split; [exact Hin|]. split; [symmetry; exact Hd | exact He].
Defined.

Lemma main_start_stop_balance_witness :
  let env := mkEnv None (fun _ => true) (fun _ => true) in
  let a := mkArgs "data" "clip.txt" 0 true 1 false false false in
  let run := main TsInt (mkFuel 1 5 5) env (Stub.fresh true []) (Parsed a) in
  snd run = Ok 1 /\
  List.length (filter is_stop (fst run)) = List.length (filter is_start (fst run)).
Proof.
  intros env a run.
  destruct (main_start_stop_balance TsInt (mkFuel 1 5 5) env
              (Stub.fresh true []) (Parsed a) (fst run) (snd run)
              (surjective_pairing run))
    as (_ & Hb & _).
  split; [reflexivity|]. exact (Hb 1 eq_refl).
Defined.

Lemma main_reader_construction_fails_witness :
  let env := mkEnv None (fun _ => true) (fun _ => true) in
  let a := mkArgs "data" "clip.mp4" 0 true 1 false false false in
  checks_pass env a = true /\
  cap_isOpened (cap_open (Stub.fresh false []) (arg_video_path a)) = false /\
  main TsInt (mkFuel 1 5 5) env (Stub.fresh false []) (Parsed a)
    = ([OpenCsv "clip.csv"; DetectorNew "data" 1; DetectorEnable;
        SetImageListener; SetProcessStatusListener; DetectorStart;
        DetectorStop], Ok 1).
Proof.
  intros env a. split; [reflexivity|]. split; [reflexivity|].
  exact (main_reader_construction_fails TsInt (mkFuel 1 5 5) env
           (Stub.fresh false []) a eq_refl (le_n 1) (or_intror eq_refl)).
Defined.


Lemma main_processes_increasing_timestamps_witness :
  let env := mkEnv None (fun _ => true) (fun _ => true) in
  let a := mkArgs "data" "clip.mp4" 1 true 1 false false false in
  let run := main TsInt (mkFuel 1 100 100) env 0%nat (Parsed a) in
  advancing (VC := Clip.capture) TsInt /\
  snd run = Ok 0 /\
  StronglySorted Z.lt (processed (fst run)).
Proof.
  intros env a run.
  assert (E : main TsInt (mkFuel 1 100 100) env 0%nat (Parsed a)
              = (fst run, Ok 0)) by (vm_compute; reflexivity).
  split; [apply Clip_advancing|]. split; [vm_compute; reflexivity|].
  exact (main_processes_increasing_timestamps TsInt (mkFuel 1 100 100) env
           0%nat a (fst run) (Clip_advancing TsInt) eq_refl E).
Defined.


Lemma main_loop_never_returns_0_witness :
  let env := mkEnv None (fun _ => true) (fun _ => true) in
  let a := mkArgs "data" "clip.mp4" 0 true 1 true false false in
  arg_loop a = true /\
  snd (main TsInt (mkFuel 3 5 5) env (Stub.fresh true (Stub.frames [0]))
         (Parsed a)) = OutOfFuel /\
  snd (main TsInt (mkFuel 3 5 5) env (Stub.fresh true (Stub.frames [0]))
         (Parsed a)) <> Ok 0.
Proof.
  intros env a. split; [reflexivity|]. split; [reflexivity|].
  exact (main_loop_never_returns_0 TsInt (mkFuel 3 5 5) env
           (Stub.fresh true (Stub.frames [0])) a eq_refl).
Defined.

Lemma main_csv_input_opened_for_output_witness :
  let env := mkEnv None (fun _ => true) (fun _ => true) in
  let a := mkArgs "data" "results.csv" 0 true 1 false false false in
  Path.extension (arg_video_path a) = ".csv"%string /\
  checks_pass env a = true /\
  main TsInt (mkFuel 1 5 5) env (Stub.fresh true (Stub.frames [0])) (Parsed a)
    = ([OpenCsv "results.csv"; DetectorNew "data" 1; DetectorEnable;
        SetImageListener; SetProcessStatusListener; DetectorStart;
        DetectorStop], Ok 1).
Proof.
  intros env a. split; [reflexivity|]. split; [reflexivity|].
  exact (main_csv_input_opened_for_output _ _ Stub.capture TsInt
           (mkFuel 1 5 5) env (Stub.fresh true (Stub.frames [0])) a
           eq_refl eq_refl (le_n 1)).
Defined.

Lemma csv_path_is_video_path_iff_csv_witness :
  supported (Path.extension "videos/clip.mp4") = true /\
  Path.replace_extension "videos/clip.mp4" ".csv" = "videos/clip.csv"%string /\
  Path.replace_extension "videos/clip.mp4" ".csv" <> "videos/clip.mp4"%string.
Proof.
  split; [reflexivity|]. split; [reflexivity|].
  exact (proj2 (csv_path_is_video_path_iff_csv "videos/clip.mp4") eq_refl).
Defined.

(** ** C4: the sentinel and the first frame *)



